(** * A shallow embedding of mintaka's process supervisor.

    Sources embedded here:
    - [src/config.rs]: [ProcessConfig], [ProcessTypeConfig] and the choice of
      the status analyzer;
    - [src/process_statuses.rs]: [ProcessStatusAnalyzer::analyze_line];
    - [src/processes.rs]: [ProcessStatus], [ProcessInstanceState], [Process]
      and [Processes] (state machine, dependency handling, focus);
    - [src/processes/snapshots.rs] and [src/processes/instances.rs]: the
      scrollback snapshot, the terminate/kill timer of an instance and the
      statuses its reader thread sends;
    - [src/processes/statuses.rs]: [SuccessId] and its [increment].

    Text is modelled as Rocq [string], the UTF-8 bytes of a [&str], decoded
    into [char]s where the code works on [char]s; a [usize] or [u64] as [N]
    or [nat] with its bounds written out where the source depends on them.
    Effects of the operating system (spawning a child, sending a signal) are
    written as an explicit [World] threaded through the calls. *)

From Stdlib Require Import List String Ascii Bool Arith NArith Lia.
Import ListNotations.

(** ** Strings: [str::trim] and [str::parse::<u64>] *)

Module Text.

(** The [char]s of a [&str]: its bytes read as UTF-8, each sequence by the
    length its lead byte announces.  A [&str] is always UTF-8; on other input
    (never a [&str]) a byte that starts no such sequence is read as U+FFFD,
    which is not whitespace. *)
Definition byte (c : ascii) : N := N.of_nat (nat_of_ascii c).

Definition is_continuation (c : ascii) : bool :=
  (0x80 <=? byte c)%N && (byte c <? 0xC0)%N.

Fixpoint chars_of (l : list ascii) : list N :=
  match l with
  | [] => []
  | c0 :: t =>
      let b0 := byte c0 in
      if (b0 <? 0x80)%N then b0 :: chars_of t
      else if (0xC0 <=? b0)%N && (b0 <? 0xE0)%N then
        match t with
        | c1 :: t1 =>
            if is_continuation c1
            then ((b0 - 0xC0) * 0x40 + (byte c1 - 0x80))%N :: chars_of t1
            else 0xFFFD%N :: chars_of t
        | [] => [0xFFFD%N]
        end
      else if (0xE0 <=? b0)%N && (b0 <? 0xF0)%N then
        match t with
        | c1 :: c2 :: t2 =>
            if is_continuation c1 && is_continuation c2
            then ((b0 - 0xE0) * 0x1000 + (byte c1 - 0x80) * 0x40
                  + (byte c2 - 0x80))%N :: chars_of t2
            else 0xFFFD%N :: chars_of t
        | _ => 0xFFFD%N :: chars_of t
        end
      else if (0xF0 <=? b0)%N && (b0 <? 0xF8)%N then
        match t with
        | c1 :: c2 :: c3 :: t3 =>
            if is_continuation c1 && is_continuation c2 && is_continuation c3
            then ((b0 - 0xF0) * 0x40000 + (byte c1 - 0x80) * 0x1000
                  + (byte c2 - 0x80) * 0x40 + (byte c3 - 0x80))%N :: chars_of t3
            else 0xFFFD%N :: chars_of t
        | _ => 0xFFFD%N :: chars_of t
        end
      else 0xFFFD%N :: chars_of t
  end.

Definition chars (s : string) : list N := chars_of (list_ascii_of_string s).

(** [core::unicode::White_Space] (the [White_Space] property of Unicode). *)
Definition White_Space (c : N) : bool :=
  (c =? 0x85)%N || (c =? 0xA0)%N || (c =? 0x1680)%N
  || ((0x2000 <=? c)%N && (c <=? 0x200A)%N)
  || (c =? 0x2028)%N || (c =? 0x2029)%N || (c =? 0x202F)%N
  || (c =? 0x205F)%N || (c =? 0x3000)%N.

(** [char::is_whitespace]: [' ' | '\x09'..='\x0d'] and, above [0x7f],
    [White_Space]. *)
Definition is_whitespace (c : N) : bool :=
  (c =? 0x20)%N || ((0x09 <=? c)%N && (c <=? 0x0D)%N)
  || ((0x7F <? c)%N && White_Space c).

Fixpoint trim_start (l : list N) : list N :=
  match l with
  | [] => []
  | c :: t => if is_whitespace c then trim_start t else l
  end.

(** [str::trim]: the [char]s left after dropping whitespace at both ends. *)
Definition trim (s : string) : list N :=
  rev (trim_start (rev (trim_start (chars s)))).

Definition u64_max : N := 2 ^ 64 - 1.

(** The digit loop of [u64::from_str]: every character must be an ASCII digit
    and every intermediate value must fit in a [u64]
    ([checked_mul] / [checked_add]). *)
Fixpoint parse_digits (l : list ascii) (acc : N) : option N :=
  match l with
  | [] => Some acc
  | c :: t =>
      let n := nat_of_ascii c in
      if (48 <=? n) && (n <=? 57) then
        let acc' := (acc * 10 + N.of_nat (n - 48))%N in
        if (acc' <=? u64_max)%N then parse_digits t acc' else None
      else None
  end.

(** [<u64 as FromStr>::from_str]: empty input and a lone sign are errors; one
    leading [+] is accepted; a [-] is not a digit for an unsigned type. *)
Definition parse_u64 (s : string) : option N :=
  match list_ascii_of_string s with
  | [] => None
  | c :: t =>
      if Ascii.eqb c "+"%char then
        match t with
        | [] => None
        | _ => parse_digits t 0
        end
      else parse_digits (c :: t) 0
  end.

End Text.

(** ** The regex engine (crate [regex])

    A compiled [Regex] is identified by its pattern ([Regex::as_str]).  The
    engine itself is an external library: whether a pattern compiles and what
    [captures] returns are the two operations the code uses, taken as a type
    class.  [captures] yields the list of capture groups (group 0 is the whole
    match), each possibly absent; [is_match] holds exactly when [captures]
    finds a match. *)

Record Regex := { as_str : string }.

Class RegexEngine := {
  regex_compiles : string -> bool;
  regex_captures : Regex -> string -> option (list (option string))
}.

Section Engine.
Context `{RegexEngine}.

(** [Regex::new(pattern)]: [Err] (here [None]) on a malformed pattern. *)
Definition regex_new (pattern : string) : option Regex :=
  if regex_compiles pattern then Some {| as_str := pattern |} else None.

Definition is_match (r : Regex) (s : string) : bool :=
  match regex_captures r s with Some _ => true | None => false end.

(** [==] on [Option<u64>]. *)
Definition opt_N_eqb (a b : option N) : bool :=
  match a, b with
  | Some x, Some y => (x =? y)%N
  | None, None => true
  | _, _ => false
  end.

(** [Captures::get(i)] *)
Definition captures_get (caps : list (option string)) (i : nat) : option string :=
  nth i caps None.

End Engine.

(** ** [src/process_statuses.rs] *)

Module ProcessStatuses.

Inductive LineAnalysis :=
| Running
| Success
| Errors (error_count : option N).

Record ProcessStatusAnalyzer := {
  success_regex : option Regex;
  error_regex : option Regex
}.

Section Analyze.
Context `{RegexEngine}.

Definition analyze_line (a : ProcessStatusAnalyzer) (last_line : string)
  : option LineAnalysis :=
  match Text.trim last_line with
  | [] => None
  | _ =>
      let from_error_regex :=
        match error_regex a with
        | None => None
        | Some r =>
            match regex_captures r last_line with
            | None => None
            | Some caps =>
                let error_count :=
                  match captures_get caps 1 with
                  | Some capture => Text.parse_u64 capture
                  | None => None
                  end in
                if opt_N_eqb error_count (Some 0%N) then Some Success
                else Some (Errors error_count)
            end
        end in
      match from_error_regex with
      | Some result => Some result
      | None =>
          match success_regex a with
          | Some r => if is_match r last_line then Some Success else Some Running
          | None => Some Running
          end
      end
  end.

End Analyze.

End ProcessStatuses.

(** ** [src/config.rs] *)

Module Config.

Inductive ProcessTypeConfig := TscWatch.

Record ProcessConfig := {
  command : list string;
  working_directory : option string;
  name : option string;
  process_type : option ProcessTypeConfig;
  after : option string;
  autostart : option bool;
  success_regex : option string;
  error_regex : option string
}.

(** The pattern of [TSC_WATCH_ERROR_REGEX] (the Rust literal with its
    escaped backslashes resolved). *)
Definition TSC_WATCH_ERROR_PATTERN : string :=
  " Found ([0-9]+) error[s]?\. Watching for file changes\.".

Section WithEngine.
Context `{RegexEngine}.

(** [static TSC_WATCH_ERROR_REGEX: LazyLock<Regex>]; its initialiser
    unwraps [Regex::new], so [None] stands for the panic. *)
Definition TSC_WATCH_ERROR_REGEX : option Regex :=
  regex_new TSC_WATCH_ERROR_PATTERN.

(** [ProcessTypeConfig::success_regex] and [::error_regex]; the outer
    [option] of [process_type_error_regex] is the panic of the lazy
    initialiser. *)
Definition process_type_success_regex (t : ProcessTypeConfig) : option Regex :=
  match t with TscWatch => None end.

Definition process_type_error_regex (t : ProcessTypeConfig)
  : option (option Regex) :=
  match t with
  | TscWatch =>
      match TSC_WATCH_ERROR_REGEX with
      | Some r => Some (Some r)
      | None => None
      end
  end.

(** [.as_ref().map(|regex| Regex::new(regex).unwrap())]; [None] is a panic. *)
Definition compile_optional (pattern : option string) : option (option Regex) :=
  match pattern with
  | None => Some None
  | Some p =>
      match regex_new p with
      | Some r => Some (Some r)
      | None => None
      end
  end.

(** [ProcessConfig::process_status_analyzer]; [None] is a panic. *)
Definition process_status_analyzer (c : ProcessConfig)
  : option ProcessStatuses.ProcessStatusAnalyzer :=
  match process_type c with
  | None =>
      match compile_optional (success_regex c) with
      | None => None
      | Some s =>
          match compile_optional (error_regex c) with
          | None => None
          | Some e =>
              Some {| ProcessStatuses.success_regex := s;
                      ProcessStatuses.error_regex := e |}
          end
      end
  | Some t =>
      match process_type_error_regex t with
      | None => None
      | Some e =>
          Some {| ProcessStatuses.success_regex := process_type_success_regex t;
                  ProcessStatuses.error_regex := e |}
      end
  end.

End WithEngine.

(** [ProcessConfig::autostart] *)
Definition autostart_of (c : ProcessConfig) : bool :=
  match autostart c with
  | None => match after c with None => true | Some _ => false end
  | Some b => b
  end.

End Config.

(** ** The emulated terminal screen (crate [wezterm_term])

    A [Screen] keeps its scrollback [lines] (oldest first) and the number of
    [physical_rows] of the viewport; the library keeps at least
    [physical_rows] lines. *)

Module Wezterm.

Definition Line := string.

Record Screen := {
  lines : list Line;
  physical_rows : N
}.

(** [Screen::phys_row]: [(lines.len() - physical_rows) + row]. *)
Definition phys_row (s : Screen) (row : N) : N :=
  (N.of_nat (List.length (lines s)) - physical_rows s + row)%N.

(** [Screen::lines_in_phys_range(start..end)]:
    [lines.iter().skip(start).take(end - start)]. *)
Definition lines_in_phys_range (s : Screen) (start end_ : N) : list Line :=
  firstn (N.to_nat (end_ - start)) (skipn (N.to_nat start) (lines s)).

End Wezterm.

Definition usize_max : N := 2 ^ 64 - 1.

Definition saturating_sub (a b : N) : N := (a - b)%N.

Definition saturating_add (a b : N) : N := N.min (a + b) usize_max.

(** ** [src/processes/snapshots.rs] *)

Module Snapshots.
Import Wezterm.

(** [processes::scroll::ScrollDirection], as matched in [ProcessSnapshot::scroll]. *)
Inductive ScrollDirection := PageUp | PageDown | LineUp | LineDown.

Record ProcessSnapshot := {
  line_index : N;
  screen : option Screen
}.

Definition empty : ProcessSnapshot := {| line_index := 0; screen := None |}.

Definition new (line_index : N) (screen : Screen) : ProcessSnapshot :=
  {| line_index := line_index; screen := Some screen |}.

(** The range end [line_index + physical_rows] is a [usize] addition; it
    stays below the scrollback length, as [line_index <= phys_row(0)]. *)
Definition snapshot_lines (s : ProcessSnapshot) : list Line :=
  match screen s with
  | Some sc =>
      lines_in_phys_range sc (line_index s) (line_index s + physical_rows sc)
  | None => []
  end.

Definition scroll_up (s : ProcessSnapshot) (n : N) : ProcessSnapshot :=
  {| line_index := saturating_sub (line_index s) n; screen := screen s |}.

Definition scroll_down (s : ProcessSnapshot) (n : N) : ProcessSnapshot :=
  match screen s with
  | Some sc =>
      {| line_index := N.min (saturating_add (line_index s) n) (phys_row sc 0);
         screen := screen s |}
  | None => s
  end.

Definition scroll (s : ProcessSnapshot) (direction : ScrollDirection)
  : ProcessSnapshot :=
  match screen s with
  | Some sc =>
      let page_scroll_distance := (physical_rows sc / 2)%N in
      match direction with
      | PageUp => scroll_up s page_scroll_distance
      | PageDown => scroll_down s page_scroll_distance
      | LineUp => scroll_up s 1
      | LineDown => scroll_down s 1
      end
  | None => s
  end.

(** A sequence of [scroll] calls on one snapshot. *)
Definition scroll_all (s : ProcessSnapshot) (ds : list ScrollDirection)
  : ProcessSnapshot :=
  fold_left scroll ds s.

(** [ProcessInstance::snapshot] (instances.rs): a clone of the terminal's
    screen, positioned at [screen.phys_row(0)]. *)
Definition instance_snapshot (sc : Screen) : ProcessSnapshot :=
  new (phys_row sc 0) sc.

End Snapshots.

(** ** [src/processes.rs] *)

Module processes.
Import Wezterm.

Inductive ScrollDirection := Up | Down.

Inductive MintakaMode := Main | ForwardInputToFocusedProcess | History.

Inductive ProcessStatus :=
| NotStarted
| Stopped
| WaitingForUpstream
| FailedToStart
| Running
| Success
| Errors (error_count : option N)
| Exited (exit_code : N).

Definition is_failure (s : ProcessStatus) : bool :=
  match s with
  | NotStarted => false
  | Stopped => false
  | WaitingForUpstream => false
  | FailedToStart => true
  | Running => false
  | Success => false
  | Errors _ => true
  | Exited exit_code => negb (exit_code =? 0)%N
  end.

Definition is_success (s : ProcessStatus) : bool :=
  match s with
  | NotStarted => false
  | Stopped => false
  | WaitingForUpstream => false
  | FailedToStart => false
  | Running => false
  | Success => true
  | Errors _ => false
  | Exited exit_code => (exit_code =? 0)%N
  end.

Definition is_running (s : ProcessStatus) : bool :=
  match s with
  | NotStarted => false
  | Stopped => false
  | WaitingForUpstream => false
  | FailedToStart => false
  | Running => true
  | Success => true
  | Errors _ => true
  | Exited _ => false
  end.

Inductive DownstreamAction := Restart | WaitForUpstream.

Inductive ProcessError :=
| SpawnCommandFailed
| ProcessConfigMissingCommand
| GetCurrentDirFailed.

Record PtySize := {
  rows : N;
  cols : N;
  pixel_width : N;
  pixel_height : N
}.

(** A [ProcessInstance]: the kill handle of its child (named by the child's
    process id) and the screen of its emulated terminal. *)
Record ProcessInstance := {
  child_pid : nat;
  terminal_screen : Screen
}.

(** The operating system as seen by the supervisor: the next process id to
    hand out, whether [std::env::current_dir] and [spawn_command] succeed,
    whether [openpty] succeeds, whether the master side's [get_size],
    [take_writer] and [try_clone_reader] succeed, the kills sent so far
    (process ids, oldest first) and the key events delivered to child
    terminals. *)
Record World := {
  next_pid : nat;
  current_dir_ok : bool;
  spawn_ok : bool;
  openpty_ok : bool;
  pty_master_ok : bool;
  killed : list nat;
  sent_input : list (nat * string)
}.

Definition with_next_pid (w : World) (n : nat) : World :=
  {| next_pid := n; current_dir_ok := current_dir_ok w; spawn_ok := spawn_ok w;
     openpty_ok := openpty_ok w; pty_master_ok := pty_master_ok w;
     killed := killed w; sent_input := sent_input w |}.

Definition with_killed (w : World) (k : list nat) : World :=
  {| next_pid := next_pid w; current_dir_ok := current_dir_ok w;
     spawn_ok := spawn_ok w; openpty_ok := openpty_ok w;
     pty_master_ok := pty_master_ok w; killed := k; sent_input := sent_input w |}.

Definition with_sent_input (w : World) (k : list (nat * string)) : World :=
  {| next_pid := next_pid w; current_dir_ok := current_dir_ok w;
     spawn_ok := spawn_ok w; openpty_ok := openpty_ok w;
     pty_master_ok := pty_master_ok w; killed := killed w; sent_input := k |}.

Module ProcessInstanceState.
(** [Running] holds the instance, its last synchronized status and the
    messages waiting in its status channel (oldest first). *)
Inductive ProcessInstanceState :=
| NotStarted
| Stopped
| WaitingForUpstream
| PendingRestart
| FailedToStart (error : ProcessError)
| Running (instance : ProcessInstance) (status : ProcessStatus)
          (status_rx : list ProcessStatus).
End ProcessInstanceState.

Abbreviation PIS := ProcessInstanceState.ProcessInstanceState.

Definition is_stopped (s : PIS) : bool :=
  match s with ProcessInstanceState.Stopped => true | _ => false end.

Definition to_status (s : PIS) : ProcessStatus :=
  match s with
  | ProcessInstanceState.NotStarted => NotStarted
  | ProcessInstanceState.Stopped => Stopped
  | ProcessInstanceState.WaitingForUpstream => WaitingForUpstream
  | ProcessInstanceState.PendingRestart => Running
  | ProcessInstanceState.FailedToStart _ => FailedToStart
  | ProcessInstanceState.Running _ status _ => status
  end.

Record Process := {
  name : string;
  process_config : Config.ProcessConfig;
  pty_size : PtySize;
  instance_state : PIS
}.

Definition with_instance_state (p : Process) (s : PIS) : Process :=
  {| name := name p; process_config := process_config p;
     pty_size := pty_size p; instance_state := s |}.

(** *** [ProcessInstance] *)

(** [ProcessInstance::process_config_to_pty_command], reduced to its
    failures. *)
Definition process_config_to_pty_command (c : Config.ProcessConfig) (w : World)
  : option ProcessError :=
  match Config.command c with
  | [] => Some ProcessConfigMissingCommand
  | _ :: _ => if current_dir_ok w then None else Some GetCurrentDirFailed
  end.

(** [ProcessInstance::start]: the new terminal has [rows] blank lines.
    [None] is a panic: after the spawn, of the [unwrap]s of [get_size],
    [take_writer] and [try_clone_reader], and of
    [process_config.process_status_analyzer()] (a configured regex that does
    not compile), evaluated as the argument of [spawn_process_reader]. *)
Definition instance_start `{RegexEngine} (c : Config.ProcessConfig) (size : PtySize)
    (w : World) : option ((ProcessInstance + ProcessError) * World) :=
  match process_config_to_pty_command c w with
  | Some e => Some (inr e, w)
  | None =>
      if spawn_ok w then
        if pty_master_ok w then
          match Config.process_status_analyzer c with
          | Some _ =>
              let screen := {| lines := repeat ""%string (N.to_nat (rows size));
                               physical_rows := rows size |} in
              Some (inl {| child_pid := next_pid w; terminal_screen := screen |},
                    with_next_pid w (S (next_pid w)))
          | None => None
          end
        else None
      else Some (inr SpawnCommandFailed, w)
  end.

(** [ProcessInstance::kill]: [child_process_killer.kill()], errors ignored. *)
Definition instance_kill (i : ProcessInstance) (w : World) : World :=
  with_killed w (killed w ++ [child_pid i]).

(** [ProcessInstance::lines]: the rows from [phys_row(0)] on; the range end
    [phys_row(VisibleRowIndex::MAX)] lies beyond every line. *)
Definition instance_lines (i : ProcessInstance) : list Line :=
  skipn (N.to_nat (phys_row (terminal_screen i) 0)) (lines (terminal_screen i)).

Definition instance_send_input (i : ProcessInstance) (input : string) (w : World)
  : World :=
  with_sent_input w (sent_input w ++ [(child_pid i, input)]).

(** *** [Process] *)

Definition process_new (c : Config.ProcessConfig) (size : PtySize) : Process :=
  {| name := match Config.name c with
             | Some n => n
             | None => String.concat " " (Config.command c)
             end;
     process_config := c;
     pty_size := size;
     instance_state := if Config.autostart_of c
                       then ProcessInstanceState.PendingRestart
                       else ProcessInstanceState.NotStarted |}.

(** [Process::start]; [None] is a panic, of [openpty(..).unwrap()] or
    within [ProcessInstance::start]. *)
Definition start `{RegexEngine} (p : Process) (w : World) : option (Process * World) :=
  if openpty_ok w then
    match instance_start (process_config p) (pty_size p) w with
    | Some (r, w') =>
        Some (with_instance_state p
                match r with
                | inl instance => ProcessInstanceState.Running instance Running []
                | inr error => ProcessInstanceState.FailedToStart error
                end, w')
    | None => None
    end
  else None.

(** [Process::kill]: the new state replaces the old one at once; a running
    instance is sent a kill and dropped together with its status channel. *)
Definition kill (p : Process) (new_state : PIS) (w : World) : Process * World :=
  (with_instance_state p new_state,
   match instance_state p with
   | ProcessInstanceState.Running instance _ _ => instance_kill instance w
   | _ => w
   end).

Definition stop (p : Process) (w : World) : Process * World :=
  kill p ProcessInstanceState.Stopped w.

Definition restart (p : Process) (w : World) : Process * World :=
  kill p ProcessInstanceState.PendingRestart w.

Definition mark_waiting_for_upstream (p : Process) (w : World) : Process * World :=
  kill p ProcessInstanceState.WaitingForUpstream w.

Fixpoint last_opt {A} (l : list A) : option A :=
  match l with
  | [] => None
  | [x] => Some x
  | _ :: t => last_opt t
  end.

(** [Process::synchronize_status]: [status_rx.try_iter().last()] drains
    the channel and keeps the last message. *)
Definition synchronize_status (p : Process) : Process * option DownstreamAction :=
  match instance_state p with
  | ProcessInstanceState.Running instance status status_rx =>
      match last_opt status_rx with
      | Some new_status =>
          (with_instance_state p
             (ProcessInstanceState.Running instance new_status []),
           Some (if is_success new_status then Restart else WaitForUpstream))
      | None => (p, None)
      end
  | _ => (p, None)
  end.

(** [Process::do_work]; its [Result] is always [Ok]; [None] is a panic of
    [start]. *)
Definition process_do_work `{RegexEngine} (p : Process) (w : World)
  : option (Process * World) :=
  match instance_state p with
  | ProcessInstanceState.PendingRestart => start p w
  | _ => Some (p, w)
  end.

Definition status (p : Process) : ProcessStatus := to_status (instance_state p).

Definition instance (p : Process) : option ProcessInstance :=
  match instance_state p with
  | ProcessInstanceState.Running instance _ _ => Some instance
  | _ => None
  end.

Definition process_lines (p : Process) : list Line :=
  match instance_state p with
  | ProcessInstanceState.Running instance _ _ => instance_lines instance
  | _ => []
  end.

Definition process_send_input (p : Process) (input : string) (w : World) : World :=
  match instance p with
  | Some i => instance_send_input i input w
  | None => w
  end.

(** *** [Processes] *)

(** [after: MultiMap<String, DownstreamProcess>]: for each upstream name,
    the indices of its downstream processes in insertion order. *)
Definition MultiMap := list (string * list nat).

Fixpoint multimap_insert (m : MultiMap) (k : string) (v : nat) : MultiMap :=
  match m with
  | [] => [(k, [v])]
  | (k', vs) :: t =>
      if String.eqb k k' then (k', vs ++ [v]) :: t
      else (k', vs) :: multimap_insert t k v
  end.

Fixpoint multimap_get_vec (m : MultiMap) (k : string) : option (list nat) :=
  match m with
  | [] => None
  | (k', vs) :: t => if String.eqb k k' then Some vs else multimap_get_vec t k
  end.

Record Processes := {
  autofocus_enabled : bool;
  mode : MintakaMode;
  snapshot : option Snapshots.ProcessSnapshot;
  processes_pty_size : PtySize;
  processes : list Process;
  focused_process_index : nat;
  after : MultiMap
}.

Definition set_processes (ps : Processes) (l : list Process) : Processes :=
  {| autofocus_enabled := autofocus_enabled ps; mode := mode ps;
     snapshot := snapshot ps; processes_pty_size := processes_pty_size ps;
     processes := l; focused_process_index := focused_process_index ps;
     after := after ps |}.

Definition set_focus (ps : Processes) (i : nat) : Processes :=
  {| autofocus_enabled := autofocus_enabled ps; mode := mode ps;
     snapshot := snapshot ps; processes_pty_size := processes_pty_size ps;
     processes := processes ps; focused_process_index := i;
     after := after ps |}.

Definition set_autofocus (ps : Processes) (b : bool) : Processes :=
  {| autofocus_enabled := b; mode := mode ps;
     snapshot := snapshot ps; processes_pty_size := processes_pty_size ps;
     processes := processes ps; focused_process_index := focused_process_index ps;
     after := after ps |}.

Definition set_mode (ps : Processes) (m : MintakaMode) : Processes :=
  {| autofocus_enabled := autofocus_enabled ps; mode := m;
     snapshot := snapshot ps; processes_pty_size := processes_pty_size ps;
     processes := processes ps; focused_process_index := focused_process_index ps;
     after := after ps |}.

Definition new : Processes :=
  {| autofocus_enabled := true;
     mode := Main;
     snapshot := None;
     processes_pty_size := {| rows := 24; cols := 80; pixel_width := 0;
                              pixel_height := 0 |};
     processes := [];
     focused_process_index := 0;
     after := [] |}.

Definition disable_autofocus (ps : Processes) : Processes := set_autofocus ps false.

Definition toggle_autofocus (ps : Processes) : Processes :=
  set_autofocus ps (negb (autofocus_enabled ps)).

Definition enter_main_mode (ps : Processes) : Processes := set_mode ps Main.

Definition should_autofocus (ps : Processes) : bool :=
  match mode ps with
  | Main => autofocus_enabled ps
  | ForwardInputToFocusedProcess | History => false
  end.

(** Applies [f] to [l[i]]; [None] is the panic of an out-of-bounds index. *)
Fixpoint modify_at (i : nat) (f : Process -> World -> Process * World)
    (l : list Process) (w : World) : option (list Process * World) :=
  match l, i with
  | [], _ => None
  | p :: t, 0 => let (p', w') := f p w in Some (p' :: t, w')
  | p :: t, S i' =>
      match modify_at i' f t w with
      | Some (t', w') => Some (p :: t', w')
      | None => None
      end
  end.

(** [Processes::start_process]; its [Result] is always [Ok]; [None] is a
    panic of [Process::do_work]. *)
Definition start_process `{RegexEngine} (c : Config.ProcessConfig) (ps : Processes)
    (w : World) : option (Processes * World) :=
  let after' := match Config.after c with
                | Some a => multimap_insert (after ps) a (List.length (processes ps))
                | None => after ps
                end in
  match process_do_work (process_new c (processes_pty_size ps)) w with
  | Some (process, w') =>
      Some ({| autofocus_enabled := autofocus_enabled ps; mode := mode ps;
               snapshot := snapshot ps; processes_pty_size := processes_pty_size ps;
               processes := processes ps ++ [process];
               focused_process_index := focused_process_index ps;
               after := after' |}, w')
  | None => None
  end.

Fixpoint stop_each (l : list Process) (w : World) : list Process * World :=
  match l with
  | [] => ([], w)
  | p :: t =>
      let (p', w1) := stop p w in
      let (t', w2) := stop_each t w1 in
      (p' :: t', w2)
  end.

Definition stop_all (ps : Processes) (w : World) : Processes * World :=
  let (l, w') := stop_each (processes ps) w in (set_processes ps l, w').

(** First loop of [handle_status_updates]: synchronize every process and
    collect [(name, action)] in index order. *)
Fixpoint synchronize_each (l : list Process)
  : list Process * list (string * DownstreamAction) :=
  match l with
  | [] => ([], [])
  | p :: t =>
      let (p', a) := synchronize_status p in
      let (t', actions) := synchronize_each t in
      (p' :: t', match a with
                 | Some a => (name p', a) :: actions
                 | None => actions
                 end)
  end.

Definition apply_action (a : DownstreamAction) (p : Process) (w : World)
  : Process * World :=
  match a with
  | Restart => restart p w
  | WaitForUpstream => mark_waiting_for_upstream p w
  end.

Fixpoint apply_to_downstreams (a : DownstreamAction) (idxs : list nat)
    (l : list Process) (w : World) : option (list Process * World) :=
  match idxs with
  | [] => Some (l, w)
  | i :: rest =>
      match modify_at i (apply_action a) l w with
      | Some (l', w') => apply_to_downstreams a rest l' w'
      | None => None
      end
  end.

(** Second loop of [handle_status_updates]. *)
Fixpoint apply_actions (m : MultiMap) (actions : list (string * DownstreamAction))
    (l : list Process) (w : World) : option (list Process * World) :=
  match actions with
  | [] => Some (l, w)
  | (upstream, a) :: rest =>
      match multimap_get_vec m upstream with
      | Some idxs =>
          match apply_to_downstreams a idxs l w with
          | Some (l', w') => apply_actions m rest l' w'
          | None => None
          end
      | None => apply_actions m rest l w
      end
  end.

Definition handle_status_updates (ps : Processes) (w : World)
  : option (Processes * World) :=
  let (l, actions) := synchronize_each (processes ps) in
  match apply_actions (after ps) actions l w with
  | Some (l', w') => Some (set_processes ps l', w')
  | None => None
  end.

Fixpoint do_work_each `{RegexEngine} (l : list Process) (w : World)
  : option (list Process * World) :=
  match l with
  | [] => Some ([], w)
  | p :: t =>
      match process_do_work p w with
      | Some (p', w1) =>
          match do_work_each t w1 with
          | Some (t', w2) => Some (p' :: t', w2)
          | None => None
          end
      | None => None
      end
  end.

(** [.iter().enumerate().find(|(_, p)| p.status().is_failure())] *)
Fixpoint find_failure_from (i : nat) (l : list Process) : option nat :=
  match l with
  | [] => None
  | p :: t => if is_failure (status p) then Some i else find_failure_from (S i) t
  end.

Definition autofocus (ps : Processes) : Processes :=
  if should_autofocus ps then
    set_focus ps match find_failure_from 0 (processes ps) with
                 | Some i => i
                 | None => focused_process_index ps
                 end
  else ps.

(** [Processes::do_work]; [None] is a panic of [handle_status_updates] or
    of a [Process::do_work].  Its [Result] is always [Ok]. *)
Definition do_work `{RegexEngine} (ps : Processes) (w : World)
  : option (Processes * World) :=
  match handle_status_updates ps w with
  | None => None
  | Some (ps1, w1) =>
      match do_work_each (processes ps1) w1 with
      | Some (l, w2) => Some (autofocus (set_processes ps1 l), w2)
      | None => None
      end
  end.

(** [Processes::lines]; [None] is the out-of-bounds panic. *)
Definition processes_lines (ps : Processes) : option (list Line) :=
  match snapshot ps with
  | Some s => Some (Snapshots.snapshot_lines s)
  | None =>
      match nth_error (processes ps) (focused_process_index ps) with
      | Some p => Some (process_lines p)
      | None => None
      end
  end.

(** [Processes::move_focus_up]; [None] is the panic of
    [processes.len() - 1] on an empty vector (overflow check).  Without
    overflow checks the subtraction wraps to [usize::MAX], an index just as
    far outside the vector. *)
Definition move_focus_up (ps : Processes) : option Processes :=
  if 0 <? focused_process_index ps then
    Some (set_focus ps (focused_process_index ps - 1))
  else
    match List.length (processes ps) with
    | 0 => None
    | S n => Some (set_focus ps n)
    end.

Definition move_focus_down (ps : Processes) : Processes :=
  if focused_process_index ps + 1 <? List.length (processes ps) then
    set_focus ps (focused_process_index ps + 1)
  else set_focus ps 0.

Definition restart_focused (ps : Processes) (w : World) : option (Processes * World) :=
  match modify_at (focused_process_index ps) restart (processes ps) w with
  | Some (l, w') => Some (set_processes ps l, w')
  | None => None
  end.

Definition send_input (ps : Processes) (input : string) (w : World) : option World :=
  match nth_error (processes ps) (focused_process_index ps) with
  | Some p => Some (process_send_input p input w)
  | None => None
  end.

(** *** History mode and resizing *)

(** [ProcessSnapshot::scroll] of this file: half a screen up or down, the
    same steps as [ProcessSnapshot::scroll_up] and [::scroll_down]. *)
Definition snapshot_scroll (s : Snapshots.ProcessSnapshot) (direction : ScrollDirection)
  : Snapshots.ProcessSnapshot :=
  match Snapshots.screen s with
  | Some sc =>
      let scroll_distance := (physical_rows sc / 2)%N in
      match direction with
      | Up => Snapshots.scroll_up s scroll_distance
      | Down => Snapshots.scroll_down s scroll_distance
      end
  | None => s
  end.

(** [Process::snapshot] *)
Definition process_snapshot (p : Process) : Snapshots.ProcessSnapshot :=
  match instance p with
  | Some i => Snapshots.instance_snapshot (terminal_screen i)
  | None => {| Snapshots.line_index := 0; Snapshots.screen := None |}
  end.

Definition set_snapshot (ps : Processes) (s : option Snapshots.ProcessSnapshot)
  : Processes :=
  {| autofocus_enabled := autofocus_enabled ps; mode := mode ps;
     snapshot := s; processes_pty_size := processes_pty_size ps;
     processes := processes ps; focused_process_index := focused_process_index ps;
     after := after ps |}.

Definition forward_input_to_focused_process (ps : Processes) : Processes :=
  set_mode ps ForwardInputToFocusedProcess.

(** [Processes::scroll]; [None] is the out-of-bounds panic of
    [self.processes[self.focused_process_index]]. *)
Definition scroll (ps : Processes) (direction : ScrollDirection) : option Processes :=
  let ps1 := set_mode ps History in
  match snapshot ps1 with
  | Some s => Some (set_snapshot ps1 (Some (snapshot_scroll s direction)))
  | None =>
      match nth_error (processes ps1) (focused_process_index ps1) with
      | Some p =>
          Some (set_snapshot ps1 (Some (snapshot_scroll (process_snapshot p) direction)))
      | None => None
      end
  end.

Definition leave_history (ps : Processes) : Processes :=
  set_snapshot (set_mode ps Main) None.

(** [size.0 as u16]: the low 16 bits. *)
Definition as_u16 (n : N) : N := (n mod 65536)%N.

(** The derived [PartialEq] of [PtySize]. *)
Definition pty_size_eqb (a b : PtySize) : bool :=
  (rows a =? rows b)%N && (cols a =? cols b)%N &&
  (pixel_width a =? pixel_width b)%N && (pixel_height a =? pixel_height b)%N.

(** Resizing the emulated terminal belongs to [wezterm_term]: its effect on
    the screen is [terminal_resize].  [pty_master.resize] is taken to
    succeed. *)
Section Resize.
Variable terminal_resize : Screen -> PtySize -> Screen.

(** [ProcessInstance::resize] *)
Definition instance_resize (i : ProcessInstance) (size : PtySize) : ProcessInstance :=
  {| child_pid := child_pid i; terminal_screen := terminal_resize (terminal_screen i) size |}.

(** [Process::resize] *)
Definition process_resize (size : PtySize) (p : Process) : Process :=
  {| name := name p; process_config := process_config p; pty_size := size;
     instance_state :=
       match instance_state p with
       | ProcessInstanceState.Running instance status status_rx =>
           ProcessInstanceState.Running (instance_resize instance size) status status_rx
       | s => s
       end |}.

(** [Processes::resize] *)
Definition resize (ps : Processes) (size : N * N) : Processes :=
  let old := processes_pty_size ps in
  let new_size := {| rows := as_u16 (snd size); cols := as_u16 (fst size);
                     pixel_width := pixel_width old; pixel_height := pixel_height old |} in
  if negb (pty_size_eqb old new_size) then
    {| autofocus_enabled := autofocus_enabled ps; mode := mode ps;
       snapshot := snapshot ps; processes_pty_size := new_size;
       processes := map (process_resize new_size) (processes ps);
       focused_process_index := focused_process_index ps;
       after := after ps |}
  else ps.

End Resize.

(** Every downstream index registered in [after] names a process. *)
Definition after_valid (ps : Processes) : bool :=
  forallb (fun kv => forallb (fun i => i <? List.length (processes ps)) (snd kv))
    (after ps).

(** Every process's terminal has the size recorded in [Processes]. *)
Definition sizes_consistent (ps : Processes) : bool :=
  forallb (fun p => pty_size_eqb (pty_size p) (processes_pty_size ps)) (processes ps).

End processes.

(** ** [src/processes/instances.rs]: [ProcessInstance::kill] (unix)

    Time is counted in milliseconds.  The reader thread of an instance stores
    [true] into [has_terminated] once, at time [terminated_at] (never, if
    [None]); the flag is never reset.  [kill] sends [SIGTERM] at once and
    spawns a thread that runs [thread::sleep(Duration::from_secs(5))], which
    sleeps {i at least} five seconds: it wakes [overshoot] milliseconds after
    them, then sends [SIGKILL] unless the flag is set. *)

Module Instances.

Inductive Signal := SIGTERM | SIGKILL.

Record ProcessInstance := {
  process_id : nat;
  terminated_at : option nat
}.

(** [has_terminated.load(..)] at time [t]. *)
Definition has_terminated (i : ProcessInstance) (t : nat) : bool :=
  match terminated_at i with
  | Some t0 => t0 <=? t
  | None => false
  end.

Definition kill_sleep_ms : nat := 5000.

(** The signals [kill] called at time [now] sends, as
    [(time, signal, process id)]. *)
Definition kill (i : ProcessInstance) (now overshoot : nat)
  : list (nat * Signal * nat) :=
  if has_terminated i now then []
  else
    let wake := now + kill_sleep_ms + overshoot in
    (now, SIGTERM, process_id i)
      :: (if has_terminated i wake then [] else [(wake, SIGKILL, process_id i)]).

End Instances.

(** ** [src/processes/statuses.rs] *)

Module Statuses.

Definition u32_max : N := 2 ^ 32 - 1.

(** [SuccessId]; [process_instance_id] is the [u32] inside the
    [ProcessInstanceId]. *)
Record SuccessId := {
  process_instance_id : N;
  success_index : N
}.

Definition success_id_new (process_instance_id : N) : SuccessId :=
  {| process_instance_id := process_instance_id; success_index := 0 |}.

(** [SuccessId::increment]: the value before the increment, and the
    incremented id; [None] is the overflow panic of [+= 1] on a [u32]. *)
Definition increment (s : SuccessId) : option (SuccessId * SuccessId) :=
  let i := (success_index s + 1)%N in
  if (i <=? u32_max)%N then
    Some (s, {| process_instance_id := process_instance_id s; success_index := i |})
  else None.

Inductive ProcessStatus :=
| NotStarted
| Stopped
| WaitingForUpstream
| FailedToStart
| Running
| Success (id : SuccessId)
| Errors (error_count : option N)
| Exited (exit_code : N).

End Statuses.

(** ** The reader thread of [ProcessInstance::spawn_process_reader]
    (instances.rs)

    [termwiz]'s parser turns the bytes read from the child's terminal into
    actions, keeping its state from one read to the next, so the statuses the
    thread sends depend only on the sequence of actions.  The actions the
    thread looks at are [Print], [PrintString], the control codes [LineFeed]
    and [CarriageReturn] and the escape [FullReset]; the others stand as
    [OtherControl], [OtherEsc] and [OtherAction].  Handing the actions to the
    terminal and waking the UI do not change the statuses and are left
    out. *)

Module Reader.
Import Statuses.

Inductive ControlCode := LineFeed | CarriageReturn | OtherControl.

Inductive EscCode := FullReset | OtherEsc.

(** [termwiz::escape::Action], reduced to what the loop distinguishes.  A
    [Print] of a [char] outside ASCII appends the same UTF-8 bytes as a
    [PrintString] of that [char], and is written so here. *)
Inductive Action :=
| Print (c : ascii)
| PrintString (s : string)
| Control (code : ControlCode)
| Esc (code : EscCode)
| OtherAction.

Section WithEngine.
Context `{RegexEngine}.
Variable process_status_analyzer : ProcessStatuses.ProcessStatusAnalyzer.

(** The status sent for a line analysis, with the next success id; [None] is
    the overflow panic of [next_success_id.increment()]. *)
Definition new_status (line_analysis : ProcessStatuses.LineAnalysis)
    (next_success_id : SuccessId) : option (ProcessStatus * SuccessId) :=
  match line_analysis with
  | ProcessStatuses.Running => Some (Running, next_success_id)
  | ProcessStatuses.Success =>
      match increment next_success_id with
      | Some (previous, next') => Some (Success previous, next')
      | None => None
      end
  | ProcessStatuses.Errors error_count => Some (Errors error_count, next_success_id)
  end.

(** A line ends at [LineFeed], [CarriageReturn] or [FullReset]. *)
Definition ends_line (action : Action) : bool :=
  match action with
  | Control LineFeed | Control CarriageReturn | Esc FullReset => true
  | _ => false
  end.

(** The [for action in &actions] loop over all reads: the statuses sent, in
    order, and the state ([last_line], [next_success_id]) after the last
    action, or [None] once the thread has panicked (what it sent before stays
    sent). *)
Fixpoint handle_actions (actions : list Action) (last_line : string)
    (next_success_id : SuccessId)
  : list ProcessStatus * option (string * SuccessId) :=
  match actions with
  | [] => ([], Some (last_line, next_success_id))
  | action :: rest =>
      match action with
      | Print c => handle_actions rest (last_line ++ String c EmptyString) next_success_id
      | PrintString s => handle_actions rest (last_line ++ s) next_success_id
      | Control LineFeed | Control CarriageReturn | Esc FullReset =>
          match ProcessStatuses.analyze_line process_status_analyzer last_line with
          | None => handle_actions rest EmptyString next_success_id
          | Some line_analysis =>
              match new_status line_analysis next_success_id with
              | None => ([], None)
              | Some (status, next') =>
                  let (sent, st) := handle_actions rest EmptyString next' in
                  (status :: sent, st)
              end
          end
      | _ => handle_actions rest last_line next_success_id
      end
  end.

(** The whole thread: the actions of every read, then end of file, where the
    exit code of [child_process.wait()] is [exit_code], or [1]
    ([ExitStatus::with_exit_code(1)]) if waiting failed. *)
Definition reader_statuses (process_instance_id : N) (actions : list Action)
    (exit_code : option N) : list ProcessStatus :=
  let (sent, st) := handle_actions actions EmptyString (success_id_new process_instance_id) in
  match st with
  | Some _ => sent ++ [Exited match exit_code with Some c => c | None => 1%N end]
  | None => sent
  end.

End WithEngine.

(** The success ids carried by a list of statuses, in order. *)
Fixpoint success_ids (l : list ProcessStatus) : list SuccessId :=
  match l with
  | [] => []
  | Success id :: t => id :: success_ids t
  | _ :: t => success_ids t
  end.

End Reader.

(** ** Reference readings of the specification *)

Module SpecReading.
Import ProcessStatuses.

Section WithEngine.
Context `{RegexEngine}.

(** The classification of a line as the specification words it: an empty
    (after trimming) line has none; a configured and matching error regex
    decides by capture group 1; else a configured and matching success regex
    gives [Success]; else [Running]. *)
Definition error_regex_captures (a : ProcessStatusAnalyzer) (line : string)
  : option (list (option string)) :=
  match error_regex a with
  | Some r => regex_captures r line
  | None => None
  end.

Definition success_regex_matches (a : ProcessStatusAnalyzer) (line : string) : bool :=
  match success_regex a with
  | Some r => is_match r line
  | None => false
  end.

(** Capture group 1 as a [u64]; [None] when missing or unparsable. *)
Definition group1_count (caps : list (option string)) : option N :=
  match captures_get caps 1 with
  | Some c => Text.parse_u64 c
  | None => None
  end.

Definition analyze_line_spec (a : ProcessStatusAnalyzer) (line : string)
  : option LineAnalysis :=
  if List.forallb Text.is_whitespace (Text.chars line) then None
  else
    match error_regex_captures a line with
    | Some caps =>
        match group1_count caps with
        | Some 0%N => Some Success
        | other => Some (Errors other)
        end
    | None => if success_regex_matches a line then Some Success else Some Running
    end.

End WithEngine.

(** The line index the specification allows after a scroll: moved by half the
    physical rows (pages) or one (lines), kept within [[0, base]]. *)
Definition scroll_amount (sc : Wezterm.Screen) (d : Snapshots.ScrollDirection) : N :=
  match d with
  | Snapshots.PageUp | Snapshots.PageDown => (Wezterm.physical_rows sc / 2)%N
  | Snapshots.LineUp | Snapshots.LineDown => 1%N
  end.

Definition scrolled_index (sc : Wezterm.Screen) (d : Snapshots.ScrollDirection)
    (idx : N) : N :=
  match d with
  | Snapshots.PageUp | Snapshots.LineUp => (idx - scroll_amount sc d)%N
  | Snapshots.PageDown | Snapshots.LineDown =>
      N.min (idx + scroll_amount sc d) (Wezterm.phys_row sc 0)
  end.

(** The screen lines at physical rows [[from, from + count)]. *)
Definition rows_from (sc : Wezterm.Screen) (from count : N) : list Wezterm.Line :=
  map (fun k => nth k (Wezterm.lines sc) ""%string)
      (seq (N.to_nat from) (N.to_nat count)).

End SpecReading.

(** ** Concrete inputs *)

Module Inputs.
Import processes.

(** An engine under which every pattern compiles and nothing matches. *)
#[local] Instance no_match_engine : RegexEngine := {|
  regex_compiles := fun _ => true;
  regex_captures := fun _ _ => None
|}.

Definition no_match : RegexEngine := no_match_engine.

Definition plain_config (n : string) (after : option string) : Config.ProcessConfig :=
  {| Config.command := ["npm"; "run"; n]%string;
     Config.working_directory := None;
     Config.name := Some n;
     Config.process_type := None;
     Config.after := after;
     Config.autostart := None;
     Config.success_regex := None;
     Config.error_regex := None |}.

Definition tsc_config : Config.ProcessConfig :=
  {| Config.command := ["tsc"; "--watch"]%string;
     Config.working_directory := None;
     Config.name := Some "tsc"%string;
     Config.process_type := Some Config.TscWatch;
     Config.after := None;
     Config.autostart := None;
     Config.success_regex := Some "ignored"%string;
     Config.error_regex := None |}.

Definition world0 : World :=
  {| next_pid := 100; current_dir_ok := true; spawn_ok := true;
     openpty_ok := true; pty_master_ok := true; killed := []; sent_input := [] |}.

Definition screen0 : Wezterm.Screen :=
  {| Wezterm.lines := ["a"; "b"; "c"; "d"; "e"; "f"; "g"]%string;
     Wezterm.physical_rows := 3 |}.

Definition instance0 : ProcessInstance :=
  {| child_pid := 7; terminal_screen := screen0 |}.

Definition running_process (n : string) (status : ProcessStatus)
    (rx : list ProcessStatus) : Process :=
  {| name := n;
     process_config := plain_config n None;
     pty_size := processes_pty_size new;
     instance_state := ProcessInstanceState.Running instance0 status rx |}.

Definition failed_process (n : string) : Process :=
  {| name := n;
     process_config := plain_config n None;
     pty_size := processes_pty_size new;
     instance_state := ProcessInstanceState.FailedToStart SpawnCommandFailed |}.

Definition pending_process : Process :=
  process_new (plain_config "web" None) (processes_pty_size new).

(** The reader thread of process [i] sending [s] on its status channel. *)
Definition reader_send (i : nat) (s : ProcessStatus) (ps : Processes) : Processes :=
  set_processes ps
    (map (fun '(j, p) =>
            if j =? i then
              match instance_state p with
              | ProcessInstanceState.Running inst st rx =>
                  with_instance_state p (ProcessInstanceState.Running inst st (rx ++ [s]))
              | _ => p
              end
            else p)
         (combine (seq 0 (List.length (processes ps))) (processes ps))).

Definition bind_run (r : option (Processes * World))
    (f : Processes -> World -> option (Processes * World)) : option (Processes * World) :=
  match r with
  | Some (ps, w) => f ps w
  | None => None
  end.

(** Start [build], then [serve] with [after = "build"]; press ^c
    ([stop_all]); restart [build] (focused); one tick starts it; [build]
    reports a success. *)
Definition stopped_downstream_scenario : option (Processes * World) :=
  bind_run (start_process (plain_config "build" None) new world0) (fun ps1 w1 =>
  bind_run (start_process (plain_config "serve" (Some "build"%string)) ps1 w1)
    (fun ps2 w2 =>
  let (ps3, w3) := stop_all ps2 w2 in
  bind_run (restart_focused ps3 w3) (fun ps4 w4 =>
  bind_run (do_work ps4 w4) (fun ps5 w5 =>
  Some (reader_send 0 Success ps5, w5))))).

(** Two failing processes, the second one focused, autofocus on. *)
Definition two_failing : Processes :=
  set_focus (set_processes new [failed_process "lint"; failed_process "test"]) 1.

End Inputs.

(** Further inputs: engines with matches and malformed patterns, a config
    without a command, a reader's output. *)

Module MoreInputs.
Import processes.

(** An engine under which only [(] is malformed and every pattern matches,
    with [3] as its first group. *)
#[local] Instance three_errors_engine : RegexEngine := {|
  regex_compiles := fun p => negb (String.eqb p "(");
  regex_captures := fun _ l => Some [Some l; Some "3"%string]
|}.

Definition three_errors : RegexEngine := three_errors_engine.

Definition error_analyzer : ProcessStatuses.ProcessStatusAnalyzer :=
  {| ProcessStatuses.success_regex := None;
     ProcessStatuses.error_regex := Some {| as_str := "x"%string |} |}.

Definition no_command_config : Config.ProcessConfig :=
  {| Config.command := [];
     Config.working_directory := None;
     Config.name := Some "empty"%string;
     Config.process_type := None;
     Config.after := None;
     Config.autostart := None;
     Config.success_regex := None;
     Config.error_regex := None |}.

Definition malformed_config : Config.ProcessConfig :=
  {| Config.command := ["make"]%string;
     Config.working_directory := None;
     Config.name := None;
     Config.process_type := None;
     Config.after := None;
     Config.autostart := None;
     Config.success_regex := Some "("%string;
     Config.error_regex := None |}.

(** A [tsc-watch] config with regexes of its own, one of them malformed. *)
Definition tsc_config_own_regexes : Config.ProcessConfig :=
  {| Config.command := ["tsc"; "--watch"]%string;
     Config.working_directory := None;
     Config.name := None;
     Config.process_type := Some Config.TscWatch;
     Config.after := None;
     Config.autostart := Some true;
     Config.success_regex := Some "("%string;
     Config.error_regex := Some "done"%string |}.

(** [build] and [serve] (after [build]), both started. *)
Definition build_and_serve : option (Processes * World) :=
  Inputs.bind_run
    (start_process (H := Inputs.no_match) (Inputs.plain_config "build" None) new
       Inputs.world0)
    (start_process (H := Inputs.no_match) (Inputs.plain_config "serve" (Some "build"%string))).

(** The state [build_and_serve] ends in (the run does not panic). *)
Definition build_and_serve_state : Processes :=
  match build_and_serve with Some (ps, _) => ps | None => new end.

(** Output [ok], a line feed, then [50%] with no line end. *)
Definition reader_actions : list Reader.Action :=
  [Reader.PrintString "ok"; Reader.Control Reader.LineFeed;
   Reader.Print "5"%char; Reader.Print "0"%char; Reader.Print "%"%char].

End MoreInputs.

(** Views of the state used by the statements below. *)

Module Observations.
Import processes.

(** The state a downstream action puts a downstream process in. *)
Definition target (a : DownstreamAction) : PIS :=
  match a with
  | Restart => ProcessInstanceState.PendingRestart
  | WaitForUpstream => ProcessInstanceState.WaitingForUpstream
  end.

(** The process ids of the running instances of [l], in order. *)
Definition stop_pids (l : list Process) : list nat :=
  flat_map (fun p => match instance p with Some i => [child_pid i] | None => [] end) l.

End Observations.

(** ** Lemmas about the model *)

Module Facts.

Lemma forallb_rev {A} (f : A -> bool) (l : list A) :
  forallb f (rev l) = forallb f l.
Proof.
  induction l as [|a l IH]; simpl; [reflexivity|].
  rewrite forallb_app, IH; simpl.
  rewrite andb_true_r, andb_comm; reflexivity.
Qed.

Lemma forallb_trim_start (l : list N) :
  forallb Text.is_whitespace (Text.trim_start l) = forallb Text.is_whitespace l.
Proof.
  induction l as [|c l IH]; simpl; [reflexivity|].
  destruct (Text.is_whitespace c) eqn:E; simpl; [exact IH|].
  rewrite E; reflexivity.
Qed.

Lemma trim_start_nil (l : list N) :
  Text.trim_start l = [] <-> forallb Text.is_whitespace l = true.
Proof.
  induction l as [|c l IH]; simpl; [tauto|].
  destruct (Text.is_whitespace c); simpl; [exact IH|].
  split; discriminate.
Qed.

Lemma trim_nil (s : string) :
  Text.trim s = [] <-> forallb Text.is_whitespace (Text.chars s) = true.
Proof.
  unfold Text.trim.
  rewrite <- forallb_trim_start, <- forallb_rev, <- trim_start_nil.
  split; intro H.
  - apply (f_equal (@rev N)) in H. rewrite rev_involutive in H. exact H.
  - rewrite H. reflexivity.
Qed.

(** [trim] works on [char]s: a line holding one no-break space (U+00A0,
    the bytes C2 A0) is empty after trimming. *)
Lemma trim_no_break_space :
  Text.trim (String (ascii_of_nat 194) (String (ascii_of_nat 160) EmptyString)) = [].
Proof. reflexivity. Qed.

Import processes.

Lemma find_failure_from_some (l : list Process) (k i : nat) (d : Process) :
  find_failure_from k l = Some i ->
  k <= i < k + List.length l
  /\ is_failure (status (nth (i - k) l d)) = true
  /\ (forall j, k <= j < i -> is_failure (status (nth (j - k) l d)) = false).
Proof.
  revert k. induction l as [|p l IH]; intros k H; simpl in H; [discriminate|].
  destruct (is_failure (status p)) eqn:Ep.
  - injection H as <-. rewrite Nat.sub_diag. simpl.
    split; [lia|]. split; [exact Ep|]. intros j Hj; lia.
  - destruct (IH (S k) H) as (Hb & Hf & Hbefore). simpl.
    split; [lia|]. split.
    + replace (i - k) with (S (i - S k)) by lia. exact Hf.
    + intros j Hj. destruct (Nat.eq_dec j k) as [->|Hne].
      * rewrite Nat.sub_diag. exact Ep.
      * replace (j - k) with (S (j - S k)) by lia. apply Hbefore. lia.
Qed.

Lemma find_failure_from_none (l : list Process) (k : nat) :
  find_failure_from k l = None -> forall p, In p l -> is_failure (status p) = false.
Proof.
  revert k. induction l as [|q l IH]; intros k H p Hin; [destruct Hin|].
  simpl in H. destruct (is_failure (status q)) eqn:Eq; [discriminate|].
  destruct Hin as [<-|Hin]; [exact Eq|]. exact (IH (S k) H p Hin).
Qed.

Lemma modify_at_length i f (l : list Process) w l' w' :
  modify_at i f l w = Some (l', w') -> List.length l' = List.length l.
Proof.
  revert i w l' w'. induction l as [|p t IH]; intros i w l' w' H;
    destruct i as [|i]; simpl in H; try discriminate.
  - destruct (f p w) as [p' w1]. injection H as <- _. reflexivity.
  - destruct (modify_at i f t w) as [[t' w1]|] eqn:E; [|discriminate].
    injection H as <- _. simpl. f_equal. exact (IH _ _ _ _ E).
Qed.

Lemma apply_to_downstreams_length a idxs (l : list Process) w l' w' :
  apply_to_downstreams a idxs l w = Some (l', w') -> List.length l' = List.length l.
Proof.
  revert l w. induction idxs as [|i rest IH]; intros l w H; simpl in H.
  - injection H as <- _. reflexivity.
  - destruct (modify_at i (apply_action a) l w) as [[l1 w1]|] eqn:E; [|discriminate].
    rewrite (IH _ _ H). exact (modify_at_length _ _ _ _ _ _ E).
Qed.

Lemma apply_actions_length m acts (l : list Process) w l' w' :
  apply_actions m acts l w = Some (l', w') -> List.length l' = List.length l.
Proof.
  revert l w. induction acts as [|[u a] rest IH]; intros l w H; simpl in H.
  - injection H as <- _. reflexivity.
  - destruct (multimap_get_vec m u) as [idxs|].
    + destruct (apply_to_downstreams a idxs l w) as [[l1 w1]|] eqn:E; [|discriminate].
      rewrite (IH _ _ H). exact (apply_to_downstreams_length _ _ _ _ _ _ E).
    + exact (IH _ _ H).
Qed.

Lemma synchronize_each_length (l : list Process) :
  List.length (fst (synchronize_each l)) = List.length l.
Proof.
  induction l as [|p t IH]; [reflexivity|]. simpl.
  destruct (synchronize_status p). destruct (synchronize_each t). simpl in *. congruence.
Qed.

Lemma do_work_each_length `{RegexEngine} (l : list Process) w l' w' :
  do_work_each l w = Some (l', w') -> List.length l' = List.length l.
Proof.
  revert w l' w'. induction l as [|p t IH]; intros w l' w' Hd; simpl in Hd.
  - injection Hd as <- _. reflexivity.
  - destruct (process_do_work p w) as [[p' w1]|]; [|discriminate].
    destruct (do_work_each t w1) as [[t' w2]|] eqn:Et; [|discriminate].
    injection Hd as <- _. simpl. rewrite (IH w1 t' w2 Et). reflexivity.
Qed.

(** [Processes::do_work] unfolded: the process vector changes, the focus
    follows autofocus, everything else is kept. *)
Lemma do_work_shape `{RegexEngine} (ps : Processes) (w : World) ps' w' :
  do_work ps w = Some (ps', w') ->
  List.length (processes ps') = List.length (processes ps)
  /\ mode ps' = mode ps
  /\ autofocus_enabled ps' = autofocus_enabled ps
  /\ focused_process_index ps' =
       if should_autofocus ps then
         match find_failure_from 0 (processes ps') with
         | Some i => i
         | None => focused_process_index ps
         end
       else focused_process_index ps.
Proof.
  unfold do_work, handle_status_updates. intro Hw.
  pose proof (synchronize_each_length (processes ps)) as Hs.
  destruct (synchronize_each (processes ps)) as [l acts]. simpl in Hs.
  destruct (apply_actions (after ps) acts l w) as [[l1 w1]|] eqn:Ea; [|discriminate].
  apply apply_actions_length in Ea.
  destruct (do_work_each (processes (set_processes ps l1)) w1) as [[l2 w2]|] eqn:Ed;
    [|discriminate].
  pose proof (do_work_each_length l1 w1 l2 w2 Ed) as Hd.
  injection Hw as <- _.
  unfold autofocus, should_autofocus; simpl.
  destruct (mode ps) eqn:Em, (autofocus_enabled ps) eqn:Eaf; simpl;
    repeat split; congruence.
Qed.

Lemma modify_at_in_bounds i f (l : list Process) w :
  i < List.length l -> modify_at i f l w <> None.
Proof.
  revert i w. induction l as [|p t IH]; intros i w Hi; simpl in Hi; [lia|].
  destruct i as [|i]; simpl.
  - destruct (f p w). discriminate.
  - specialize (IH i w ltac:(lia)).
    destruct (modify_at i f t w) as [[t' w1]|]; [discriminate|contradiction].
Qed.

Lemma start_process_shape `{RegexEngine} c (ps : Processes) w ps' w' :
  start_process c ps w = Some (ps', w') ->
  List.length (processes ps') = S (List.length (processes ps))
  /\ focused_process_index ps' = focused_process_index ps.
Proof.
  unfold start_process.
  destruct (process_do_work _ w) as [[p w1]|]; [|discriminate].
  intro E. injection E as <- _. simpl.
  rewrite length_app. simpl. split; [lia|reflexivity].
Qed.

Lemma skipn_cons_nth {A} (l : list A) (i : nat) (d : A) :
  i < List.length l -> skipn i l = nth i l d :: skipn (S i) l.
Proof.
  revert i. induction l as [|a l IH]; intros i Hi; simpl in Hi; [lia|].
  destruct i as [|i]; [reflexivity|].
  simpl. apply IH. lia.
Qed.

Lemma firstn_skipn_rows {A} (l : list A) (d : A) (n i : nat) :
  i + n <= List.length l ->
  firstn n (skipn i l) = map (fun k => nth k l d) (seq i n).
Proof.
  revert i. induction n as [|n IH]; intros i Hle; [reflexivity|].
  rewrite (skipn_cons_nth l i d) by lia. cbn [firstn seq map].
  f_equal. apply IH. lia.
Qed.

Lemma scroll_screen (s : Snapshots.ProcessSnapshot) d :
  Snapshots.screen (Snapshots.scroll s d) = Snapshots.screen s.
Proof.
  unfold Snapshots.scroll, Snapshots.scroll_up, Snapshots.scroll_down.
  destruct (Snapshots.screen s) eqn:E; [|exact E].
  destruct d; simpl; rewrite ?E; reflexivity.
Qed.

Lemma scroll_step (sc : Wezterm.Screen) (s : Snapshots.ProcessSnapshot) d :
  (N.of_nat (List.length (Wezterm.lines sc)) <= usize_max)%N ->
  Snapshots.screen s = Some sc ->
  Snapshots.line_index (Snapshots.scroll s d)
  = SpecReading.scrolled_index sc d (Snapshots.line_index s).
Proof.
  intros Hmax Hs.
  unfold Snapshots.scroll, Snapshots.scroll_up, Snapshots.scroll_down,
    SpecReading.scrolled_index, SpecReading.scroll_amount, saturating_sub,
    saturating_add, Wezterm.phys_row.
  rewrite Hs. destruct d; simpl; try reflexivity; lia.
Qed.

Lemma scroll_all_bounded (sc : Wezterm.Screen) ds (s : Snapshots.ProcessSnapshot) :
  (N.of_nat (List.length (Wezterm.lines sc)) <= usize_max)%N ->
  Snapshots.screen s = Some sc ->
  (Snapshots.line_index s <= Wezterm.phys_row sc 0)%N ->
  Snapshots.screen (Snapshots.scroll_all s ds) = Some sc
  /\ (Snapshots.line_index (Snapshots.scroll_all s ds) <= Wezterm.phys_row sc 0)%N.
Proof.
  unfold Snapshots.scroll_all. revert s.
  induction ds as [|d ds IH]; intros s Hmax Hs Hle; simpl; [auto|].
  apply IH; [exact Hmax| rewrite scroll_screen; exact Hs|].
  rewrite (scroll_step sc s d Hmax Hs).
  unfold SpecReading.scrolled_index.
  destruct d; lia.
Qed.

End Facts.

(** ** The claims *)

Module Claims.
Import processes.

(** C3: for every line, [analyze_line] returns no classification when the
    line is empty after trimming (every [char] of it is Unicode whitespace,
    as [char::is_whitespace] decides); otherwise, when an error regex is
    configured and matches, [Success] if capture group 1 parses to 0 and
    [Errors{error_count}] otherwise (with [None] for a missing or unparsable
    capture); otherwise [Success] when a success regex is configured and
    matches; otherwise [Running]. *)
Theorem analyze_line_classification `{RegexEngine}
    (a : ProcessStatuses.ProcessStatusAnalyzer) (line : string) :
  ProcessStatuses.analyze_line a line = SpecReading.analyze_line_spec a line.
Proof.
  unfold ProcessStatuses.analyze_line, SpecReading.analyze_line_spec.
  destruct (Text.trim line) as [|c t] eqn:Etrim.
  - apply Facts.trim_nil in Etrim. rewrite Etrim. reflexivity.
  - destruct (forallb Text.is_whitespace (Text.chars line)) eqn:Ews.
    + apply Facts.trim_nil in Ews. congruence.
    + unfold SpecReading.error_regex_captures, SpecReading.success_regex_matches,
        SpecReading.group1_count.
      destruct (ProcessStatuses.error_regex a) as [r|];
        [destruct (regex_captures r line) as [caps|]|];
        try (destruct (ProcessStatuses.success_regex a); reflexivity).
      simpl.
      destruct (match captures_get caps 1 with
                | Some capture => Text.parse_u64 capture
                | None => None end) as [[|p]|]; reflexivity.
Qed.

(** C9: the [tsc-watch] preset yields an analyzer whose error regex is
    exactly [" Found ([0-9]+) error[s]?\. Watching for file changes\."] and
    which has no success regex; with no preset and no explicit regex both
    regexes are absent and every line that is not empty after trimming
    ([str::trim], on Unicode whitespace) is classified [Running]. *)
Theorem tsc_watch_preset_and_plain_analyzer `{RegexEngine} :
  (forall c : Config.ProcessConfig,
     Config.process_type c = Some Config.TscWatch ->
     regex_compiles Config.TSC_WATCH_ERROR_PATTERN = true ->
     Config.process_status_analyzer c =
       Some {| ProcessStatuses.success_regex := None;
               ProcessStatuses.error_regex :=
                 Some {| as_str := " Found ([0-9]+) error[s]?\. Watching for file changes\." |} |})
  /\
  (forall (c : Config.ProcessConfig) (line : string),
     Config.process_type c = None ->
     Config.success_regex c = None ->
     Config.error_regex c = None ->
     exists a,
       Config.process_status_analyzer c = Some a /\
       ProcessStatuses.success_regex a = None /\
       ProcessStatuses.error_regex a = None /\
       (Text.trim line <> [] ->
        ProcessStatuses.analyze_line a line = Some ProcessStatuses.Running)).
Proof.
  split.
  - intros c Htype Hcomp.
    unfold Config.process_status_analyzer, Config.process_type_error_regex,
      Config.TSC_WATCH_ERROR_REGEX, regex_new.
    rewrite Htype, Hcomp. reflexivity.
  - intros c line Htype Hs He.
    unfold Config.process_status_analyzer.
    rewrite Htype, Hs, He. simpl.
    eexists; repeat split.
    intro Hne. unfold ProcessStatuses.analyze_line. simpl.
    destruct (Text.trim line); [congruence|reflexivity].
Qed.

Lemma tsc_watch_preset_and_plain_analyzer_witness :
  Config.process_status_analyzer (H := Inputs.no_match) Inputs.tsc_config =
    Some {| ProcessStatuses.success_regex := None;
            ProcessStatuses.error_regex :=
              Some {| as_str := Config.TSC_WATCH_ERROR_PATTERN |} |}
  /\ ProcessStatuses.analyze_line (H := Inputs.no_match)
       {| ProcessStatuses.success_regex := None; ProcessStatuses.error_regex := None |}
       " Found 3 errors."%string = Some ProcessStatuses.Running.
Proof.
  destruct (tsc_watch_preset_and_plain_analyzer (H := Inputs.no_match)) as [H1 H2].
  split.
  - apply H1; reflexivity.
  - destruct (H2 (Inputs.plain_config "x" None) " Found 3 errors."%string
                 eq_refl eq_refl eq_refl) as (a & Ha & Hs & He & Hl).
    vm_compute in Ha. injection Ha as <-. apply Hl. vm_compute. discriminate.
Defined.

(** C1 (counterexample): the claim that no action is emitted when the status
    observed this tick equals the previous one fails: a running process whose
    status is [Running] and which receives [Running] again emits
    [WaitForUpstream]. *)
Lemma synchronize_status_equal_status_emits :
  ~ (forall p i s rx,
       instance_state p = ProcessInstanceState.Running i s rx ->
       last_opt rx = Some s ->
       snd (synchronize_status p) = None).
Proof.
  intro Hclaim.
  specialize (Hclaim (Inputs.running_process "build" Running [Running])
                     Inputs.instance0 Running [Running] eq_refl eq_refl).
  vm_compute in Hclaim. discriminate.
Qed.

(** C1 (amended): each tick every process yields at most one downstream
    action: none unless it holds a running instance and at least one status
    arrived on its channel since the last tick; otherwise [Restart] when the
    last status received [is_success] and [WaitForUpstream] otherwise, with no
    comparison against the previous status.  [handle_status_updates] thus
    collects at most one [(name, action)] pair per process, in index order. *)
Theorem synchronize_status_actions (p : Process) (l : list Process) :
  snd (synchronize_status p) =
    match instance_state p with
    | ProcessInstanceState.Running _ _ rx =>
        match last_opt rx with
        | Some s => Some (if is_success s then Restart else WaitForUpstream)
        | None => None
        end
    | _ => None
    end
  /\ snd (synchronize_each l) =
       flat_map (fun q => match snd (synchronize_status q) with
                          | Some a => [(name q, a)]
                          | None => []
                          end) l.
Proof.
  split.
  - unfold synchronize_status.
    destruct (instance_state p); try reflexivity.
    destruct (last_opt status_rx); reflexivity.
  - induction l as [|q l IH]; [reflexivity|].
    simpl. destruct (synchronize_status q) as [q' a] eqn:Eq.
    destruct (synchronize_each l) as [l' acts]. simpl in IH |- *.
    assert (Hname : name q' = name q).
    { unfold synchronize_status in Eq.
      destruct (instance_state q); try (injection Eq as <- _; reflexivity).
      destruct (last_opt status_rx); injection Eq as <- _; reflexivity. }
    destruct a; rewrite ?Hname, IH; reflexivity.
Qed.

(** C2 (counterexample): [restart] of a process with a live instance does not
    keep the instance until its exit is observed: the new state
    [PendingRestart] is committed at once and the instance is dropped. *)
Lemma restart_drops_instance :
  ~ (forall p w i s rx,
       instance_state p = ProcessInstanceState.Running i s rx ->
       instance (fst (restart p w)) = Some i).
Proof.
  intro Hclaim.
  specialize (Hclaim (Inputs.running_process "build" Running [])
                     Inputs.world0 Inputs.instance0 Running [] eq_refl).
  vm_compute in Hclaim. discriminate.
Qed.

(** C2 (amended): [restart], [stop] and [mark_waiting_for_upstream] commit
    [PendingRestart], [Stopped] and [WaitingForUpstream] at once; when an
    instance was running it is sent a kill and dropped with its status
    channel, so its exit code is never observed by the process. *)
Theorem kill_commits_next_state (p : Process) (w : World) :
  let killed_world :=
    match instance_state p with
    | ProcessInstanceState.Running i _ _ => with_killed w (killed w ++ [child_pid i])
    | _ => w
    end in
  restart p w =
    (with_instance_state p ProcessInstanceState.PendingRestart, killed_world)
  /\ stop p w = (with_instance_state p ProcessInstanceState.Stopped, killed_world)
  /\ mark_waiting_for_upstream p w =
       (with_instance_state p ProcessInstanceState.WaitingForUpstream, killed_world)
  /\ instance (fst (restart p w)) = None
  /\ instance (fst (stop p w)) = None
  /\ instance (fst (mark_waiting_for_upstream p w)) = None.
Proof.
  cbv zeta.
  unfold restart, stop, mark_waiting_for_upstream, kill, instance_kill.
  repeat split.
Qed.

(** C8 (counterexample): [is_running] of the reported status does not hold
    exactly when a live instance exists: a process pending its (re)start is
    reported [Running] and has no instance. *)
Lemma pending_restart_running_without_instance :
  ~ (forall p : Process, is_running (status p) = true <-> instance p <> None).
Proof.
  intro Hclaim.
  destruct (Hclaim Inputs.pending_process) as [Hto _].
  apply Hto; reflexivity.
Qed.

(** C8 (amended): [is_success] holds exactly for [Success] and [Exited{0}];
    [is_failure] exactly for [FailedToStart], [Errors] and [Exited] with a
    nonzero code; [is_running] exactly for [Running], [Success] and [Errors].
    The status a process reports is running exactly when the process is
    pending its (re)start (reported [Running], no instance yet) or holds an
    instance whose last status is [Running], [Success] or [Errors]; an
    instance whose child exited is kept and reports [Exited]. *)
Theorem status_predicates (s : ProcessStatus) (p : Process) :
  (is_success s = true <-> s = Success \/ s = Exited 0)
  /\ (is_failure s = true <->
        s = FailedToStart \/ (exists c, s = Errors c)
        \/ (exists e, s = Exited e /\ e <> 0%N))
  /\ (is_running s = true <-> s = Running \/ s = Success \/ exists c, s = Errors c)
  /\ (is_running (status p) = true <->
        instance_state p = ProcessInstanceState.PendingRestart
        \/ exists i st rx, instance_state p = ProcessInstanceState.Running i st rx
                           /\ is_running st = true)
  /\ (instance p <> None <->
        exists i st rx, instance_state p = ProcessInstanceState.Running i st rx).
Proof.
  split; [|split; [|split; [|split]]].
  1-3: destruct s; simpl; split; intros;
    repeat match goal with
           | H : _ \/ _ |- _ => destruct H
           | H : exists _, _ |- _ => destruct H
           | H : _ /\ _ |- _ => destruct H
           end;
    try discriminate; try congruence; eauto.
  - apply N.eqb_eq in H. subst. right. reflexivity.
  - match goal with H : Exited _ = Exited _ |- _ => injection H as -> end.
    reflexivity.
  - right; right. exists exit_code. split; [reflexivity|].
    intro E; subst; discriminate.
  - match goal with H : Exited _ = Exited _ |- _ => injection H as -> end.
    apply negb_true_iff, N.eqb_neq. assumption.
  - unfold status, to_status.
    destruct (instance_state p); simpl; split; intro H;
      repeat match goal with
             | H : _ \/ _ |- _ => destruct H
             | H : exists _, _ |- _ => destruct H
             | H : _ /\ _ |- _ => destruct H
             end;
      try discriminate; eauto.
    + right. exists instance0, status0, status_rx. auto.
    + match goal with H : ProcessInstanceState.Running _ _ _ = _ |- _ =>
        injection H as _ -> _ end. assumption.
  - unfold instance.
    destruct (instance_state p); split; intro H;
      repeat match goal with
             | H : exists _, _ |- _ => destruct H
             end;
      try discriminate; try (exfalso; apply H; reflexivity); eauto.
Qed.

(** C4 (code_bug): a stopped process is restarted without a [restart()] of
    its own.  [build] and [serve] (with [after = "build"]) are started; ^c
    stops both; the user restarts the focused [build]; after one tick
    [build] reports a success, and the next tick restarts and starts the
    stopped [serve] (the downstream [Restart] ignores [Stopped]).
    [Process::do_work] alone does keep a stopped process stopped. *)
Theorem stopped_downstream_restarted_by_upstream :
  option_map (fun '(ps, _) => map status (processes ps))
    Inputs.stopped_downstream_scenario = Some [Running; Stopped]
  /\ option_map (fun '(ps, _) => map status (processes ps))
       (Inputs.bind_run Inputs.stopped_downstream_scenario
          (do_work (H := Inputs.no_match)))
     = Some [Success; Running]
  /\ option_map (fun '(ps, _) => map instance (processes ps))
       (Inputs.bind_run Inputs.stopped_downstream_scenario
          (do_work (H := Inputs.no_match)))
     <> option_map (fun '(ps, _) => map (fun _ => None) (processes ps))
       (Inputs.bind_run Inputs.stopped_downstream_scenario
          (do_work (H := Inputs.no_match)))
  /\ (forall (E : RegexEngine) p w, instance_state p = ProcessInstanceState.Stopped ->
        process_do_work p w = Some (p, w)).
Proof.
  split; [vm_compute; reflexivity|].
  split; [vm_compute; reflexivity|].
  split; [vm_compute; discriminate|].
  intros E p w H. unfold process_do_work. rewrite H. reflexivity.
Qed.

(** C5 (counterexample): autofocus moves the focus away from a failing
    process: with two failing processes and the second focused, [do_work]
    focuses the first; and [move_focus_down] leaves autofocus enabled. *)
Lemma autofocus_leaves_failing_focus :
  should_autofocus Inputs.two_failing = true
  /\ focused_process_index Inputs.two_failing = 1
  /\ map (fun p => is_failure (status p)) (processes Inputs.two_failing) = [true; true]
  /\ option_map (fun '(ps, _) => focused_process_index ps)
       (do_work (H := Inputs.no_match) Inputs.two_failing Inputs.world0) = Some 0
  /\ autofocus_enabled (move_focus_down Inputs.two_failing) = true.
Proof. vm_compute. repeat split. Qed.

(** C5 (amended): autofocus applies only when the mode is [Main] and
    [autofocus_enabled] is set; [do_work] then sets the focus to the first
    process in index order whose status [is_failure] (also when the focused
    process is itself failing), and keeps it when none fails; otherwise the
    focus is kept.  [move_focus_up] and [move_focus_down] change the focus
    index and nothing else.  [disable_autofocus] clears [autofocus_enabled]
    and [toggle_autofocus] flips it; every other operation on [Processes]
    ([do_work], the focus moves, [enter_main_mode],
    [forward_input_to_focused_process], [scroll], [leave_history],
    [start_process], [stop_all], [restart_focused], [resize]) keeps it, and
    [new] starts with it set. *)
Theorem autofocus_first_failure `{RegexEngine} :
  (forall (ps : Processes) (w : World) ps' w',
   do_work ps w = Some (ps', w') ->
   (should_autofocus ps = true <-> mode ps = Main /\ autofocus_enabled ps = true)
   /\ (should_autofocus ps = true ->
       forall d i, find_failure_from 0 (processes ps') = Some i ->
         focused_process_index ps' = i
         /\ is_failure (status (nth i (processes ps') d)) = true
         /\ forall j, j < i -> is_failure (status (nth j (processes ps') d)) = false)
   /\ (should_autofocus ps = true ->
       (forall p, In p (processes ps') -> is_failure (status p) = false) ->
       focused_process_index ps' = focused_process_index ps)
   /\ (should_autofocus ps = false -> focused_process_index ps' = focused_process_index ps)
   /\ autofocus_enabled ps' = autofocus_enabled ps)
  /\ (forall ps : Processes,
       move_focus_down ps = set_focus ps (focused_process_index (move_focus_down ps))
       /\ (forall ps'', move_focus_up ps = Some ps'' ->
             ps'' = set_focus ps (focused_process_index ps''))
       /\ autofocus_enabled (disable_autofocus ps) = false
       /\ autofocus_enabled (toggle_autofocus ps) = negb (autofocus_enabled ps))
  /\ autofocus_enabled new = true
  /\ (forall (ps : Processes) (w : World),
       autofocus_enabled (move_focus_down ps) = autofocus_enabled ps
       /\ (forall ps'', move_focus_up ps = Some ps'' ->
             autofocus_enabled ps'' = autofocus_enabled ps)
       /\ autofocus_enabled (enter_main_mode ps) = autofocus_enabled ps
       /\ autofocus_enabled (forward_input_to_focused_process ps) = autofocus_enabled ps
       /\ (forall d ps'', scroll ps d = Some ps'' ->
             autofocus_enabled ps'' = autofocus_enabled ps)
       /\ autofocus_enabled (leave_history ps) = autofocus_enabled ps
       /\ (forall c ps'' w'', start_process c ps w = Some (ps'', w'') ->
             autofocus_enabled ps'' = autofocus_enabled ps)
       /\ autofocus_enabled (fst (stop_all ps w)) = autofocus_enabled ps
       /\ (forall ps'' w'', restart_focused ps w = Some (ps'', w'') ->
             autofocus_enabled ps'' = autofocus_enabled ps)
       /\ (forall terminal_resize size,
             autofocus_enabled (resize terminal_resize ps size) = autofocus_enabled ps)).
Proof.
  split; [|split; [|split]].
  - intros ps w ps' w' Hw.
    destruct (Facts.do_work_shape ps w ps' w' Hw) as (_ & _ & Haf & Hf).
    split; [|split; [|split; [|split]]].
    + unfold should_autofocus. destruct (mode ps); intuition congruence.
    + intros Ha d i Hi. rewrite Hf, Ha, Hi. split; [reflexivity|].
      destruct (Facts.find_failure_from_some _ 0 i d Hi) as (_ & Hfail & Hbefore).
      rewrite Nat.sub_0_r in Hfail. split; [exact Hfail|].
      intros j Hj. specialize (Hbefore j). rewrite Nat.sub_0_r in Hbefore.
      apply Hbefore. lia.
    + intros Ha Hnone. rewrite Hf, Ha.
      destruct (find_failure_from 0 (processes ps')) as [i|] eqn:Ei; [|reflexivity].
      destruct (Facts.find_failure_from_some _ 0 i Inputs.pending_process Ei)
        as ((_ & Hlt) & Hfail & _).
      rewrite Nat.sub_0_r in Hfail.
      rewrite (Hnone _ (nth_In _ _ Hlt)) in Hfail. discriminate.
    + intro Ha. rewrite Hf, Ha. reflexivity.
    + exact Haf.
  - intro ps. split; [|split; [|split]].
    + unfold move_focus_down. destruct (_ <? _); reflexivity.
    + intros ps'' Hup. unfold move_focus_up in Hup.
      destruct (0 <? _); [injection Hup as <-; reflexivity|].
      destruct (List.length (processes ps)); [discriminate|].
      injection Hup as <-; reflexivity.
    + reflexivity.
    + reflexivity.
  - reflexivity.
  - intros ps w.
    refine (conj _ (conj _ (conj _ (conj _ (conj _ (conj _ (conj _ (conj _ (conj _ _))))))))).
    + unfold move_focus_down. destruct (_ <? _); reflexivity.
    + intros ps'' Hup. unfold move_focus_up in Hup.
      destruct (0 <? _); [injection Hup as <-; reflexivity|].
      destruct (List.length (processes ps)); [discriminate|].
      injection Hup as <-; reflexivity.
    + reflexivity.
    + reflexivity.
    + intros d ps'' Hs. unfold scroll in Hs. simpl in Hs.
      destruct (snapshot ps); [injection Hs as <-; reflexivity|].
      destruct (nth_error (processes ps) (focused_process_index ps));
        [injection Hs as <-; reflexivity|discriminate].
    + reflexivity.
    + intros c ps'' w'' Hs. unfold start_process in Hs.
      destruct (process_do_work _ w) as [[p w1]|]; [|discriminate].
      injection Hs as <- _. reflexivity.
    + unfold stop_all. destruct (stop_each (processes ps) w). reflexivity.
    + intros ps'' w'' Hr. unfold restart_focused in Hr.
      destruct (modify_at _ _ _ _) as [[l w1]|]; [|discriminate].
      injection Hr as <- _. reflexivity.
    + intros terminal_resize size. unfold resize.
      destruct (negb _); reflexivity.
Qed.

Lemma autofocus_first_failure_witness :
  do_work (H := Inputs.no_match) Inputs.two_failing Inputs.world0 =
    Some (set_focus Inputs.two_failing 0, Inputs.world0)
  /\ focused_process_index (set_focus Inputs.two_failing 0) = 0.
Proof.
  assert (E : do_work (H := Inputs.no_match) Inputs.two_failing Inputs.world0 =
                Some (set_focus Inputs.two_failing 0, Inputs.world0))
    by (vm_compute; reflexivity).
  split; [exact E|].
  destruct (autofocus_first_failure (H := Inputs.no_match)) as (Hdo & _).
  destruct (Hdo _ _ _ _ E) as (_ & Hfirst & _).
  destruct (Hfirst (eq_refl true) Inputs.pending_process 0 (eq_refl (Some 0)))
    as [Hi _].
  exact Hi.
Defined.

(** C10: with no process the focus and rendering operations are not total:
    [move_focus_up] from focus 0 computes [processes.len() - 1] on a zero
    length (an overflow panic), and [lines()] (without a snapshot),
    [restart_focused()] and [send_input()] index [processes] out of bounds;
    [new()] itself starts with focus 0 and no process.  Once a process
    exists the focus stays in [[0, processes.len())] under [start_process],
    [move_focus_up], [move_focus_down] and [do_work] (when these do not
    panic), and the indexing operations succeed. *)
Theorem focus_needs_a_process `{RegexEngine} :
  (processes new = [] /\ focused_process_index new = 0
   /\ ~ focused_process_index new < List.length (processes new))
  /\ (forall ps, processes ps = [] -> focused_process_index ps = 0 ->
        move_focus_up ps = None)
  /\ (forall ps, processes ps = [] ->
        ~ focused_process_index (move_focus_down ps)
            < List.length (processes (move_focus_down ps)))
  /\ (forall ps, processes ps = [] -> snapshot ps = None -> processes_lines ps = None)
  /\ (forall ps w, processes ps = [] -> restart_focused ps w = None)
  /\ (forall ps w k, processes ps = [] -> send_input ps k w = None)
  /\ (forall c ps w ps' w', focused_process_index ps <= List.length (processes ps) ->
        start_process c ps w = Some (ps', w') ->
        focused_process_index ps' < List.length (processes ps'))
  /\ (forall ps, focused_process_index ps < List.length (processes ps) ->
        (exists ps', move_focus_up ps = Some ps'
                     /\ focused_process_index ps' < List.length (processes ps'))
        /\ focused_process_index (move_focus_down ps)
             < List.length (processes (move_focus_down ps))
        /\ processes_lines ps <> None
        /\ (forall w, restart_focused ps w <> None)
        /\ (forall w k, send_input ps k w <> None))
  /\ (forall ps w ps' w', do_work ps w = Some (ps', w') ->
        focused_process_index ps < List.length (processes ps) ->
        focused_process_index ps' < List.length (processes ps')).
Proof.
  split; [vm_compute; repeat split; lia|].
  split.
  { intros ps He Hf. unfold move_focus_up. rewrite Hf, He. reflexivity. }
  split.
  { intros ps He. unfold move_focus_down. rewrite He. simpl.
    destruct (focused_process_index ps + 1 <? 0); simpl; rewrite He; simpl; lia. }
  split.
  { intros ps He Hs. unfold processes_lines. rewrite Hs, He.
    destruct (focused_process_index ps); reflexivity. }
  split.
  { intros ps w He. unfold restart_focused. rewrite He.
    destruct (focused_process_index ps); reflexivity. }
  split.
  { intros ps w k He. unfold send_input. rewrite He.
    destruct (focused_process_index ps); reflexivity. }
  split.
  { intros c ps w ps' w' Hle Hs.
    destruct (Facts.start_process_shape c ps w ps' w' Hs) as [Hl Hf].
    rewrite Hl, Hf. lia. }
  split.
  { intros ps Hlt. split; [|split; [|split; [|split]]].
    - unfold move_focus_up.
      destruct (0 <? focused_process_index ps) eqn:E.
      + eexists; split; [reflexivity|]. simpl. lia.
      + destruct (List.length (processes ps)) as [|n] eqn:En; [lia|].
        eexists; split; [reflexivity|]. simpl. rewrite En. lia.
    - unfold move_focus_down.
      destruct (focused_process_index ps + 1 <? List.length (processes ps)) eqn:E;
        simpl.
      + apply Nat.ltb_lt in E. exact E.
      + lia.
    - unfold processes_lines. destruct (snapshot ps); [discriminate|].
      apply nth_error_Some in Hlt.
      destruct (nth_error (processes ps) (focused_process_index ps));
        [discriminate|contradiction].
    - intro w. unfold restart_focused.
      pose proof (Facts.modify_at_in_bounds _ restart _ w Hlt) as Hm.
      destruct (modify_at _ _ _ _) as [[l w']|]; [discriminate|contradiction].
    - intros w k. unfold send_input.
      apply nth_error_Some in Hlt.
      destruct (nth_error (processes ps) (focused_process_index ps));
        [discriminate|contradiction]. }
  intros ps w ps' w' Hw Hlt.
  destruct (Facts.do_work_shape ps w ps' w' Hw) as (Hl & _ & _ & Hf).
  rewrite Hf, Hl.
  destruct (should_autofocus ps); [|exact Hlt].
  destruct (find_failure_from 0 (processes ps')) as [i|] eqn:Ei; [|exact Hlt].
  destruct (Facts.find_failure_from_some _ 0 i Inputs.pending_process Ei)
    as ((_ & Hi) & _). rewrite <- Hl. lia.
Qed.

(** C6: a snapshot taken from an instance starts at the screen's base row
    [phys_row(0)]; each scroll moves the line index by half the physical rows
    ([PageUp]/[PageDown]) or by one ([LineUp]/[LineDown]), clamped to
    [[0, base]], so after any sequence of scrolls the index is within
    [[0, base]]; and the lines shown are exactly the rows
    [[line_index, line_index + physical_rows)].  (The screen keeps at least
    [physical_rows] lines and fewer than [usize::MAX].) *)
Theorem snapshot_scroll_window (sc : Wezterm.Screen)
    (ds : list Snapshots.ScrollDirection) :
  (Wezterm.physical_rows sc <= N.of_nat (List.length (Wezterm.lines sc)))%N ->
  (N.of_nat (List.length (Wezterm.lines sc)) <= usize_max)%N ->
  let s0 := Snapshots.instance_snapshot sc in
  let s := Snapshots.scroll_all s0 ds in
  Snapshots.line_index s0 = Wezterm.phys_row sc 0
  /\ (forall s' d, Snapshots.screen s' = Some sc ->
        Snapshots.line_index (Snapshots.scroll s' d)
        = SpecReading.scrolled_index sc d (Snapshots.line_index s'))
  /\ (Snapshots.line_index s <= Wezterm.phys_row sc 0)%N
  /\ Snapshots.snapshot_lines s
     = SpecReading.rows_from sc (Snapshots.line_index s) (Wezterm.physical_rows sc)
  /\ List.length (Snapshots.snapshot_lines s) = N.to_nat (Wezterm.physical_rows sc).
Proof.
  intros Hrows Hmax. cbv zeta.
  destruct (Facts.scroll_all_bounded sc ds (Snapshots.instance_snapshot sc) Hmax
              eq_refl (N.le_refl _)) as [Hs Hle].
  assert (Hlines :
    Snapshots.snapshot_lines (Snapshots.scroll_all (Snapshots.instance_snapshot sc) ds)
    = SpecReading.rows_from sc
        (Snapshots.line_index (Snapshots.scroll_all (Snapshots.instance_snapshot sc) ds))
        (Wezterm.physical_rows sc)).
  { unfold Snapshots.snapshot_lines. rewrite Hs.
    unfold Wezterm.lines_in_phys_range, SpecReading.rows_from.
    set (i := Snapshots.line_index _) in *.
    replace (i + Wezterm.physical_rows sc - i)%N with (Wezterm.physical_rows sc) by lia.
    apply Facts.firstn_skipn_rows.
    unfold Wezterm.phys_row in Hle. lia. }
  split; [reflexivity|].
  split; [intros s' d Hs'; exact (Facts.scroll_step sc s' d Hmax Hs')|].
  split; [exact Hle|].
  split; [exact Hlines|].
  rewrite Hlines. unfold SpecReading.rows_from.
  rewrite length_map, length_seq. reflexivity.
Qed.

Lemma snapshot_scroll_window_witness :
  Snapshots.snapshot_lines
    (Snapshots.scroll_all (Snapshots.instance_snapshot Inputs.screen0)
       [Snapshots.PageUp; Snapshots.PageUp; Snapshots.LineDown])
  = ["d"; "e"; "f"]%string
  /\ Snapshots.snapshot_lines
       (Snapshots.scroll_all (Snapshots.instance_snapshot Inputs.screen0)
          [Snapshots.PageUp; Snapshots.PageUp; Snapshots.LineDown])
     = SpecReading.rows_from Inputs.screen0 3 3.
Proof.
  assert (Hrows : (Wezterm.physical_rows Inputs.screen0
                   <= N.of_nat (List.length (Wezterm.lines Inputs.screen0)))%N)
    by (vm_compute; discriminate).
  assert (Hmax : (N.of_nat (List.length (Wezterm.lines Inputs.screen0)) <= usize_max)%N)
    by (vm_compute; discriminate).
  destruct (snapshot_scroll_window Inputs.screen0
              [Snapshots.PageUp; Snapshots.PageUp; Snapshots.LineDown] Hrows Hmax)
    as (_ & _ & _ & Hl & _).
  split; [vm_compute; reflexivity|].
  rewrite Hl. vm_compute. reflexivity.
Defined.

(** C7 (counterexample): the flag need not be set within five seconds of
    [SIGTERM] when no [SIGKILL] is sent: the timer thread sleeps at least five
    seconds, and a child whose reader sets the flag 5001 ms after [SIGTERM],
    checked by a timer waking 5002 ms after it, is never sent [SIGKILL]. *)
Lemma kill_timer_checks_after_deadline :
  ~ (forall i now overshoot,
       Instances.has_terminated i now = false ->
       Instances.has_terminated i (now + 5000) = true
       \/ exists t, In (t, Instances.SIGKILL, Instances.process_id i)
                       (Instances.kill i now overshoot)).
Proof.
  intro Hclaim.
  destruct (Hclaim {| Instances.process_id := 42; Instances.terminated_at := Some 5001 |}
              0 2 eq_refl) as [H|[t H]].
  - vm_compute in H. discriminate.
  - vm_compute in H. destruct H as [H|H]; [discriminate|exact H].
Qed.

(** C7 (amended): [kill] on an instance whose flag is set sends nothing;
    otherwise it sends [SIGTERM] at once, and the timer, waking at least five
    seconds later ([overshoot] milliseconds after them), sends [SIGKILL] to
    the same process id unless the flag is set by then: so either the flag is
    set when the timer checks it or [SIGKILL] is issued, never earlier than
    five seconds after [SIGTERM]. *)
Theorem kill_sigterm_then_sigkill (i : Instances.ProcessInstance) (now overshoot : nat) :
  (Instances.has_terminated i now = true -> Instances.kill i now overshoot = [])
  /\ (Instances.has_terminated i now = false ->
      let wake := now + 5000 + overshoot in
      In (now, Instances.SIGTERM, Instances.process_id i) (Instances.kill i now overshoot)
      /\ (Instances.has_terminated i wake = true
          \/ In (wake, Instances.SIGKILL, Instances.process_id i)
                (Instances.kill i now overshoot))
      /\ (forall t sig pid, In (t, sig, pid) (Instances.kill i now overshoot) ->
            pid = Instances.process_id i
            /\ ((sig = Instances.SIGTERM /\ t = now)
                \/ (sig = Instances.SIGKILL /\ t = wake
                    /\ Instances.has_terminated i wake = false)))).
Proof.
  unfold Instances.kill, Instances.kill_sleep_ms.
  split; [intro H; rewrite H; reflexivity|].
  intro H. rewrite H. cbv zeta.
  split; [left; reflexivity|].
  destruct (Instances.has_terminated i (now + 5000 + overshoot)) eqn:Ew.
  - split; [left; reflexivity|].
    intros t sig pid [Hin|[]]. injection Hin as <- <- <-. auto.
  - split; [right; right; left; reflexivity|].
    intros t sig pid [Hin|[Hin|[]]]; injection Hin as <- <- <-; auto.
Qed.

End Claims.

(** ** Further properties of the code *)

Module ExtraLemmas.
Import processes.




Lemma forallb_get_vec (P : nat -> bool) (m : MultiMap) k vs :
  forallb (fun kv => forallb P (snd kv)) m = true ->
  multimap_get_vec m k = Some vs -> forallb P vs = true.
Proof.
  induction m as [|[k0 ws] t IH]; simpl; intros Hm Hg; [discriminate|].
  apply andb_true_iff in Hm as [H1 H2].
  destruct (String.eqb k k0); [injection Hg as <-; exact H1|auto].
Qed.

Lemma modify_at_bound i f (l : list Process) w r :
  modify_at i f l w = Some r -> i < List.length l.
Proof.
  revert i w r. induction l as [|p t IH]; intros i w r H; destruct i as [|i];
    simpl in *; try discriminate; [lia|].
  destruct (modify_at i f t w) as [[t' w']|] eqn:E; [|discriminate].
  apply IH in E. lia.
Qed.

Lemma apply_to_downstreams_some a idxs (l : list Process) w :
  forallb (fun i => i <? List.length l) idxs = true ->
  exists r, apply_to_downstreams a idxs l w = Some r.
Proof.
  revert l w. induction idxs as [|i rest IH]; intros l w H; simpl in *; [eauto|].
  apply andb_true_iff in H as [Hi Hr]. apply Nat.ltb_lt in Hi.
  pose proof (Facts.modify_at_in_bounds i (apply_action a) l w Hi) as Hm.
  destruct (modify_at i (apply_action a) l w) as [[l1 w1]|] eqn:E; [|contradiction].
  apply Facts.modify_at_length in E. apply IH. rewrite E. exact Hr.
Qed.

Lemma apply_actions_some m acts (l : list Process) w :
  forallb (fun kv => forallb (fun i => i <? List.length l) (snd kv)) m = true ->
  exists r, apply_actions m acts l w = Some r.
Proof.
  revert l w. induction acts as [|[u a] rest IH]; intros l w H; simpl; [eauto|].
  destruct (multimap_get_vec m u) as [idxs|] eqn:Eg; [|auto].
  destruct (apply_to_downstreams_some a idxs l w (forallb_get_vec _ _ _ _ H Eg))
    as [[l1 w1] E].
  rewrite E. apply IH. apply Facts.apply_to_downstreams_length in E. rewrite E. exact H.
Qed.

Lemma autofocus_frame (ps : Processes) :
  after (autofocus ps) = after ps /\ processes (autofocus ps) = processes ps
  /\ snapshot (autofocus ps) = snapshot ps /\ mode (autofocus ps) = mode ps
  /\ processes_pty_size (autofocus ps) = processes_pty_size ps.
Proof.
  unfold autofocus. destruct (should_autofocus ps); repeat split.
Qed.

Lemma do_work_frame `{RegexEngine} (ps : Processes) w ps' w' :
  do_work ps w = Some (ps', w') ->
  after ps' = after ps /\ snapshot ps' = snapshot ps
  /\ processes_pty_size ps' = processes_pty_size ps.
Proof.
  unfold do_work, handle_status_updates.
  destruct (synchronize_each (processes ps)) as [l acts].
  destruct (apply_actions (after ps) acts l w) as [[l1 w1]|]; [|discriminate].
  destruct (do_work_each _ w1) as [[l2 w2]|]; [|discriminate].
  intro Hw. injection Hw as <- _.
  destruct (autofocus_frame (set_processes (set_processes ps l1) l2)) as (H1 & _ & H3 & _ & H5).
  rewrite H1, H3, H5. repeat split.
Qed.

End ExtraLemmas.

Module ExtraLemmas2.
Import processes Observations ExtraLemmas.

Lemma stop_each_spec (l : list Process) w :
  Forall (fun p => instance_state p = ProcessInstanceState.Stopped) (fst (stop_each l w))
  /\ List.length (fst (stop_each l w)) = List.length l
  /\ Forall2 (fun p p' => name p' = name p /\ pty_size p' = pty_size p) l (fst (stop_each l w))
  /\ snd (stop_each l w) = with_killed w (killed w ++ stop_pids l).
Proof.
  revert w. induction l as [|p t IH]; intro w; simpl.
  - rewrite app_nil_r. destruct w. repeat split; constructor.
  - unfold stop, kill, instance.
    set (w1 := match instance_state p with
               | ProcessInstanceState.Running instance _ _ => instance_kill instance w
               | _ => w end).
    destruct (IH w1) as (H1 & H2 & H3 & H4).
    destruct (stop_each t w1) as [t' w2]. simpl in *.
    refine (conj _ (conj _ (conj _ _))).
    + constructor; [reflexivity|exact H1].
    + rewrite H2. reflexivity.
    + constructor; [split; reflexivity|exact H3].
    + rewrite H4. subst w1.
      destruct (instance_state p); simpl; try reflexivity.
      unfold instance_kill, with_killed. simpl. rewrite <- app_assoc. reflexivity.
Qed.

Lemma synchronize_each_stopped (l : list Process) :
  Forall (fun p => instance_state p = ProcessInstanceState.Stopped) l ->
  synchronize_each l = (l, []).
Proof.
  induction 1 as [|p t Hp Ht IH]; [reflexivity|]. simpl.
  unfold synchronize_status. rewrite Hp, IH. reflexivity.
Qed.

Lemma do_work_each_stopped `{RegexEngine} (l : list Process) w :
  Forall (fun p => instance_state p = ProcessInstanceState.Stopped) l ->
  do_work_each l w = Some (l, w).
Proof.
  induction 1 as [|p t Hp Ht IH]; [reflexivity|]. simpl.
  unfold process_do_work. rewrite Hp, IH. reflexivity.
Qed.

Lemma find_failure_stopped (l : list Process) k :
  Forall (fun p => instance_state p = ProcessInstanceState.Stopped) l ->
  find_failure_from k l = None.
Proof.
  intro H. revert k. induction H as [|p t Hp Ht IH]; intro k; [reflexivity|]. simpl.
  unfold status. rewrite Hp. apply IH.
Qed.

Lemma modify_at_apply_action i a (l : list Process) w l' w' :
  modify_at i (apply_action a) l w = Some (l', w') ->
  forall j d, nth j l' d = if j =? i then with_instance_state (nth j l d) (target a)
                          else nth j l d.
Proof.
  revert i w l' w'. induction l as [|p t IH]; intros i w l' w' H j d;
    destruct i as [|i]; simpl in H; try discriminate.
  - destruct a; simpl in H; injection H as <- _; destruct j; reflexivity.
  - destruct (modify_at i (apply_action a) t w) as [[t' w1]|] eqn:E; [|discriminate].
    injection H as <- _. destruct j as [|j]; [reflexivity|].
    simpl. exact (IH i w t' w1 E j d).
Qed.

End ExtraLemmas2.

Module ExtraFacts.
Import processes Observations ExtraLemmas ExtraLemmas2.



(** X5: a config whose command is empty makes the started process fail with
    [ProcessConfigMissingCommand], a failure status, spawning nothing; the
    missing command is found before any regex is compiled, so the only
    panic left is that of [openpty]. *)
Theorem start_process_missing_command `{RegexEngine} c (ps : Processes) w :
  Config.command c = [] -> Config.autostart_of c = true -> openpty_ok w = true ->
  exists ps',
    start_process c ps w = Some (ps', w)
    /\ option_map instance_state (nth_error (processes ps') (List.length (processes ps)))
       = Some (ProcessInstanceState.FailedToStart ProcessConfigMissingCommand)
    /\ option_map (fun p => is_failure (status p))
         (nth_error (processes ps') (List.length (processes ps)))
       = Some true.
Proof.
  intros Hc Ha Ho. unfold start_process, process_do_work, process_new.
  rewrite Ha. simpl. unfold start. rewrite Ho. simpl.
  unfold instance_start, process_config_to_pty_command. rewrite Hc. simpl.
  eexists. split; [reflexivity|]. simpl.
  rewrite nth_error_app2, Nat.sub_diag by lia. split; reflexivity.
Qed.

Lemma start_process_missing_command_witness :
  Config.command MoreInputs.no_command_config = []
  /\ Config.autostart_of MoreInputs.no_command_config = true
  /\ openpty_ok Inputs.world0 = true
  /\ exists ps',
       start_process (H := MoreInputs.three_errors) MoreInputs.no_command_config new
         Inputs.world0 = Some (ps', Inputs.world0)
       /\ option_map instance_state (nth_error (processes ps') (List.length (processes new)))
          = Some (ProcessInstanceState.FailedToStart ProcessConfigMissingCommand)
       /\ option_map (fun p => is_failure (status p))
            (nth_error (processes ps') (List.length (processes new)))
          = Some true.
Proof.
  split; [reflexivity|]. split; [reflexivity|]. split; [reflexivity|].
  apply (start_process_missing_command (H := MoreInputs.three_errors)); reflexivity.
Defined.

(** X7: [stop_all] leaves every process [Stopped], keeping names and sizes,
    and the only effect on the system is one kill per running instance, in
    process order. *)
Theorem stop_all_stops_every_process (ps : Processes) w :
  Forall (fun p => instance_state p = ProcessInstanceState.Stopped) (processes (fst (stop_all ps w)))
  /\ Forall2 (fun p p' => name p' = name p /\ pty_size p' = pty_size p)
       (processes ps) (processes (fst (stop_all ps w)))
  /\ focused_process_index (fst (stop_all ps w)) = focused_process_index ps
  /\ snd (stop_all ps w)
     = with_killed w (killed w ++ flat_map (fun p => match instance p with
                                                       | Some i => [child_pid i]
                                                       | None => [] end) (processes ps)).
Proof.
  unfold stop_all. destruct (stop_each_spec (processes ps) w) as (H1 & _ & H3 & H4).
  destruct (stop_each (processes ps) w) as [l w']. simpl in *.
  repeat split; assumption.
Qed.

(** X8: after [stop_all], [do_work] is the identity: it synchronizes no
    status, restarts nothing, kills nothing and does not move the focus. *)
Theorem do_work_after_stop_all `{RegexEngine} (ps : Processes) w w' :
  do_work (fst (stop_all ps w)) w' = Some (fst (stop_all ps w), w').
Proof.
  destruct (stop_each_spec (processes ps) w) as (Hs & _).
  unfold stop_all in *. destruct (stop_each (processes ps) w) as [l w1]. simpl in *.
  unfold do_work, handle_status_updates. simpl.
  rewrite synchronize_each_stopped by exact Hs. simpl.
  rewrite do_work_each_stopped by exact Hs.
  unfold autofocus. simpl. rewrite find_failure_stopped by exact Hs.
  destruct (should_autofocus _); destruct ps; reflexivity.
Qed.

(** X9: applying a downstream action to the downstream indices: every
    listed process (once or more) gets the action's state, [PendingRestart]
    for [Restart] and [WaitingForUpstream] for [WaitForUpstream], and every
    other process is left as it was. *)
Theorem apply_to_downstreams_states a idxs (l : list Process) w l' w' :
  apply_to_downstreams a idxs l w = Some (l', w') ->
  forall j d, nth j l' d = if existsb (Nat.eqb j) idxs
                           then with_instance_state (nth j l d) (target a)
                           else nth j l d.
Proof.
  revert l w. induction idxs as [|i rest IH]; intros l w H j d; simpl in H.
  - injection H as <- _. reflexivity.
  - destruct (modify_at i (apply_action a) l w) as [[l1 w1]|] eqn:E; [|discriminate].
    rewrite (IH l1 w1 H j d), (modify_at_apply_action _ _ _ _ _ _ E j d). simpl.
    destruct (j =? i); destruct (existsb (Nat.eqb j) rest); reflexivity.
Qed.

Lemma apply_to_downstreams_states_witness :
  let l := [Inputs.failed_process "a"; Inputs.failed_process "b"] in
  apply_to_downstreams Restart [1] l Inputs.world0
    = Some ([Inputs.failed_process "a";
             with_instance_state (Inputs.failed_process "b") ProcessInstanceState.PendingRestart],
            Inputs.world0)
  /\ nth 1 [Inputs.failed_process "a";
            with_instance_state (Inputs.failed_process "b") ProcessInstanceState.PendingRestart]
        Inputs.pending_process
     = if existsb (Nat.eqb 1) [1]
       then with_instance_state (nth 1 l Inputs.pending_process) (target Restart)
       else nth 1 l Inputs.pending_process.
Proof.
  intro l. split; [reflexivity|].
  apply (apply_to_downstreams_states Restart [1] l Inputs.world0 _ Inputs.world0).
  reflexivity.
Defined.

End ExtraFacts.

Module ExtraFacts2.
Import processes Observations ExtraLemmas.

(** X10: with the focus on a process, [move_focus_up] then
    [move_focus_down] come back to it, and so do [move_focus_down] then
    [move_focus_up], wrapping around at both ends; neither panics. *)
Theorem move_focus_round_trip (ps : Processes) :
  focused_process_index ps < List.length (processes ps) ->
  (exists ps1, move_focus_up ps = Some ps1
               /\ focused_process_index (move_focus_down ps1) = focused_process_index ps)
  /\ (exists ps2, move_focus_up (move_focus_down ps) = Some ps2
                  /\ focused_process_index ps2 = focused_process_index ps).
Proof.
  intro H. unfold move_focus_up, move_focus_down. split.
  - destruct (0 <? focused_process_index ps) eqn:E1.
    + apply Nat.ltb_lt in E1. eexists. split; [reflexivity|]. simpl.
      destruct (focused_process_index ps - 1 + 1 <? List.length (processes ps)) eqn:E2;
        simpl; [lia|apply Nat.ltb_ge in E2; lia].
    + apply Nat.ltb_ge in E1.
      destruct (List.length (processes ps)) as [|n] eqn:El; [lia|].
      eexists. split; [reflexivity|]. simpl. rewrite El.
      destruct (n + 1 <? S n) eqn:E2; [apply Nat.ltb_lt in E2; lia|simpl; lia].
  - destruct (focused_process_index ps + 1 <? List.length (processes ps)) eqn:E1; simpl.
    + replace (0 <? focused_process_index ps + 1) with true
        by (symmetry; apply Nat.ltb_lt; lia).
      eexists. split; [reflexivity|]. simpl. lia.
    + apply Nat.ltb_ge in E1. simpl.
      destruct (List.length (processes ps)) as [|n] eqn:El; [lia|].
      eexists. split; [reflexivity|]. simpl. lia.
Qed.

Lemma move_focus_round_trip_witness :
  focused_process_index Inputs.two_failing < List.length (processes Inputs.two_failing)
  /\ (exists ps1, move_focus_up Inputs.two_failing = Some ps1
        /\ focused_process_index (move_focus_down ps1) = focused_process_index Inputs.two_failing)
  /\ (exists ps2, move_focus_up (move_focus_down Inputs.two_failing) = Some ps2
        /\ focused_process_index ps2 = focused_process_index Inputs.two_failing).
Proof.
  split; [vm_compute; lia|]. apply move_focus_round_trip. vm_compute. lia.
Defined.

(** X11: whatever the focus, [move_focus_down] on a non-empty list puts it
    on a process; [move_focus_up] keeps an in-range focus in range. *)
Theorem move_focus_stays_in_range (ps : Processes) :
  0 < List.length (processes ps) ->
  focused_process_index (move_focus_down ps) < List.length (processes ps)
  /\ (focused_process_index ps < List.length (processes ps) ->
      exists ps1, move_focus_up ps = Some ps1
                  /\ focused_process_index ps1 < List.length (processes ps)).
Proof.
  intro H. unfold move_focus_up, move_focus_down. split.
  - destruct (focused_process_index ps + 1 <? List.length (processes ps)) eqn:E; simpl;
      [apply Nat.ltb_lt in E; lia|lia].
  - intro Hf. destruct (0 <? focused_process_index ps) eqn:E.
    + eexists. split; [reflexivity|]. simpl. lia.
    + destruct (List.length (processes ps)) as [|n] eqn:El; [lia|].
      eexists. split; [reflexivity|]. simpl. lia.
Qed.

Lemma move_focus_stays_in_range_witness :
  0 < List.length (processes (set_focus Inputs.two_failing 5))
  /\ focused_process_index (move_focus_down (set_focus Inputs.two_failing 5))
       < List.length (processes (set_focus Inputs.two_failing 5))
  /\ (focused_process_index (set_focus Inputs.two_failing 5)
        < List.length (processes (set_focus Inputs.two_failing 5)) ->
      exists ps1, move_focus_up (set_focus Inputs.two_failing 5) = Some ps1
        /\ focused_process_index ps1 < List.length (processes (set_focus Inputs.two_failing 5))).
Proof.
  split; [vm_compute; lia|]. apply move_focus_stays_in_range. vm_compute. lia.
Defined.

(** X12: [Processes::scroll] switches to history mode with a snapshot, keeps
    the processes and the focus, and suspends autofocus; it panics exactly
    when it has no snapshot yet and the focus is out of range. *)
Theorem scroll_enters_history (ps : Processes) d :
  (forall ps', scroll ps d = Some ps' ->
     mode ps' = History /\ snapshot ps' <> None /\ processes ps' = processes ps
     /\ focused_process_index ps' = focused_process_index ps /\ autofocus ps' = ps')
  /\ (scroll ps d = None <->
      snapshot ps = None /\ List.length (processes ps) <= focused_process_index ps).
Proof.
  unfold scroll. split.
  - intros ps' H.
    destruct (snapshot (set_mode ps History)) eqn:E.
    + injection H as <-. repeat split; discriminate.
    + destruct (nth_error _ _); [|discriminate].
      injection H as <-. repeat split; discriminate.
  - simpl. destruct (snapshot ps) eqn:E.
    + split; [discriminate|intros [H _]; discriminate].
    + destruct (nth_error (processes ps) (focused_process_index ps)) eqn:En.
      * split; [discriminate|]. intros [_ H]. apply nth_error_None in H. congruence.
      * split; [|reflexivity]. intros _. split; [reflexivity|]. apply nth_error_None. exact En.
Qed.

(** X13: while a snapshot is shown, [do_work] leaves the displayed lines as
    they were, whatever the processes do. *)
Theorem history_lines_frozen `{RegexEngine} (ps : Processes) w ps' w' :
  snapshot ps <> None -> do_work ps w = Some (ps', w') ->
  processes_lines ps' = processes_lines ps.
Proof.
  intros Hs Hd. destruct (do_work_frame _ _ _ _ Hd) as (_ & Hsn & _).
  unfold processes_lines. rewrite Hsn.
  destruct (snapshot ps); [reflexivity|contradiction].
Qed.

Lemma history_lines_frozen_witness :
  let ps := set_snapshot (set_mode Inputs.two_failing History) (Some (Snapshots.instance_snapshot Inputs.screen0)) in
  snapshot ps <> None
  /\ do_work (H := Inputs.no_match) ps Inputs.world0 = Some (ps, Inputs.world0)
  /\ processes_lines ps = processes_lines ps.
Proof.
  intro ps. split; [discriminate|]. split; [reflexivity|].
  apply (history_lines_frozen (H := Inputs.no_match) ps Inputs.world0 ps Inputs.world0);
    [discriminate|reflexivity].
Defined.

(** X14: [leave_history] drops the snapshot, so the next [scroll] starts
    from a fresh snapshot of the focused process. *)
Theorem leave_history_then_scroll (ps : Processes) p d :
  nth_error (processes ps) (focused_process_index ps) = Some p ->
  exists ps', scroll (leave_history ps) d = Some ps'
              /\ snapshot ps' = Some (snapshot_scroll (process_snapshot p) d)
              /\ mode ps' = History.
Proof.
  intro H. unfold scroll, leave_history. simpl. rewrite H.
  eexists. repeat split.
Qed.

Lemma leave_history_then_scroll_witness :
  nth_error (processes Inputs.two_failing) (focused_process_index Inputs.two_failing)
    = Some (Inputs.failed_process "test")
  /\ exists ps', scroll (leave_history Inputs.two_failing) Up = Some ps'
     /\ snapshot ps' = Some (snapshot_scroll (process_snapshot (Inputs.failed_process "test")) Up)
     /\ mode ps' = History.
Proof.
  split; [reflexivity|]. apply leave_history_then_scroll. reflexivity.
Defined.

(** X15: on a fresh snapshot of a process ([Process::snapshot]), scrolling
    up and then down returns to the fresh snapshot. *)
Theorem snapshot_up_then_down (p : Process) :
  (forall i, instance p = Some i -> (Wezterm.phys_row (terminal_screen i) 0 <= usize_max)%N) ->
  snapshot_scroll (snapshot_scroll (process_snapshot p) Up) Down = process_snapshot p.
Proof.
  intro H. unfold process_snapshot.
  destruct (instance p) as [i|] eqn:E; [|reflexivity].
  specialize (H i eq_refl).
  unfold Snapshots.instance_snapshot, Snapshots.new, snapshot_scroll,
    Snapshots.scroll_up, Snapshots.scroll_down, saturating_sub, saturating_add; simpl.
  f_equal. lia.
Qed.

Lemma snapshot_up_then_down_witness :
  (forall i, instance (Inputs.running_process "web" Running []) = Some i ->
             (Wezterm.phys_row (terminal_screen i) 0 <= usize_max)%N)
  /\ snapshot_scroll (snapshot_scroll (process_snapshot (Inputs.running_process "web" Running [])) Up) Down
     = process_snapshot (Inputs.running_process "web" Running []).
Proof.
  assert (H : forall i, instance (Inputs.running_process "web" Running []) = Some i ->
             (Wezterm.phys_row (terminal_screen i) 0 <= usize_max)%N).
  { intros i Hi. injection Hi as <-. vm_compute. discriminate. }
  split; [exact H|]. exact (snapshot_up_then_down _ H).
Defined.

(** X16: [ProcessSnapshot::scroll] (snapshots.rs) on a fresh instance
    snapshot: a page up then a page down, or a line up then a line down,
    return to the fresh snapshot. *)
Theorem instance_snapshot_up_then_down (sc : Wezterm.Screen) :
  (Wezterm.phys_row sc 0 <= usize_max)%N ->
  Snapshots.scroll (Snapshots.scroll (Snapshots.instance_snapshot sc) Snapshots.PageUp) Snapshots.PageDown
    = Snapshots.instance_snapshot sc
  /\ Snapshots.scroll (Snapshots.scroll (Snapshots.instance_snapshot sc) Snapshots.LineUp) Snapshots.LineDown
    = Snapshots.instance_snapshot sc.
Proof.
  intro H.
  unfold Snapshots.instance_snapshot, Snapshots.new, Snapshots.scroll,
    Snapshots.scroll_up, Snapshots.scroll_down, saturating_sub, saturating_add; simpl.
  split; f_equal; lia.
Qed.

Lemma instance_snapshot_up_then_down_witness :
  (Wezterm.phys_row Inputs.screen0 0 <= usize_max)%N
  /\ Snapshots.scroll (Snapshots.scroll (Snapshots.instance_snapshot Inputs.screen0) Snapshots.PageUp) Snapshots.PageDown
    = Snapshots.instance_snapshot Inputs.screen0
  /\ Snapshots.scroll (Snapshots.scroll (Snapshots.instance_snapshot Inputs.screen0) Snapshots.LineUp) Snapshots.LineDown
    = Snapshots.instance_snapshot Inputs.screen0.
Proof.
  assert (H : (Wezterm.phys_row Inputs.screen0 0 <= usize_max)%N) by (vm_compute; discriminate).
  split; [exact H|]. exact (instance_snapshot_up_then_down _ H).
Defined.

(** X18: the operations on the focused process panic exactly when the
    focus is out of range: [restart_focused], [send_input], and [lines]
    unless a snapshot is shown. *)
Theorem focused_operations_panic_out_of_range (ps : Processes) w input :
  (restart_focused ps w = None <-> List.length (processes ps) <= focused_process_index ps)
  /\ (send_input ps input w = None <-> List.length (processes ps) <= focused_process_index ps)
  /\ (processes_lines ps = None
      <-> snapshot ps = None /\ List.length (processes ps) <= focused_process_index ps).
Proof.
  split; [|split].
  - unfold restart_focused.
    destruct (Nat.lt_ge_cases (focused_process_index ps) (List.length (processes ps))) as [Hl|Hl].
    + pose proof (Facts.modify_at_in_bounds _ restart _ w Hl) as Hm.
      destruct (modify_at _ restart _ w) as [[l w']|]; [|contradiction].
      split; [discriminate|lia].
    + destruct (modify_at _ restart _ w) as [[l w']|] eqn:E; [|tauto].
      apply modify_at_bound in E. lia.
  - unfold send_input. rewrite <- nth_error_None.
    destruct (nth_error _ _); split; congruence.
  - unfold processes_lines. rewrite <- nth_error_None.
    destruct (snapshot ps); [split; [discriminate|intros [H _]; discriminate]|].
    destruct (nth_error _ _); split; try congruence; intuition congruence.
Qed.

End ExtraFacts2.

Module ExtraLemmas3.
Import processes Statuses Reader.

Lemma parse_digits_bound (l : list ascii) acc n :
  Text.parse_digits l acc = Some n -> (acc <= Text.u64_max)%N -> (n <= Text.u64_max)%N.
Proof.
  revert acc. induction l as [|c t IH]; intros acc H Hacc; simpl in H.
  - injection H as <-. exact Hacc.
  - revert H. cbv zeta. destruct (_ && _); [|discriminate].
    destruct (_ <=? Text.u64_max)%N eqn:E; [|discriminate].
    intro H. apply N.leb_le in E. exact (IH _ H E).
Qed.

Lemma parse_u64_bound s n : Text.parse_u64 s = Some n -> (n <= Text.u64_max)%N.
Proof.
  unfold Text.parse_u64. intro H.
  destruct (list_ascii_of_string s) as [|c t]; [discriminate|].
  destruct (Ascii.eqb c "+"%char); [destruct t; [discriminate|]|];
    exact (parse_digits_bound _ _ _ H (N.le_0_l _)).
Qed.

Lemma handle_actions_cons `{RegexEngine} a act rest line next :
  handle_actions a (act :: rest) line next =
  if ends_line act then
    match ProcessStatuses.analyze_line a line with
    | None => handle_actions a rest EmptyString next
    | Some line_analysis =>
        match new_status line_analysis next with
        | None => ([], None)
        | Some (status, next') =>
            let (sent, st) := handle_actions a rest EmptyString next' in
            (status :: sent, st)
        end
    end
  else handle_actions a rest (match act with
                              | Print c => line ++ String c EmptyString
                              | PrintString s => line ++ s
                              | _ => line end) next.
Proof. destruct act as [c|s|[]|[]|]; reflexivity. Qed.

Lemma success_ids_app l1 l2 : success_ids (l1 ++ l2) = success_ids l1 ++ success_ids l2.
Proof. induction l1 as [|[] t IH]; simpl; rewrite ?IH; reflexivity. Qed.

Lemma handle_actions_ids `{RegexEngine} a acts line next :
  success_ids (fst (handle_actions a acts line next)) =
  map (fun k => {| process_instance_id := process_instance_id next;
                   success_index := success_index next + N.of_nat k |})
      (seq 0 (List.length (success_ids (fst (handle_actions a acts line next))))).
Proof.
  revert line next. induction acts as [|act rest IH]; intros line next; [reflexivity|].
  rewrite handle_actions_cons. destruct (ends_line act); [|apply IH].
  destruct (ProcessStatuses.analyze_line a line) as [la|]; [|apply IH].
  destruct la as [| |ec]; simpl.
  - specialize (IH EmptyString next).
    destruct (handle_actions a rest EmptyString next) as [sent st]. exact IH.
  - unfold increment.
    destruct (success_index next + 1 <=? u32_max)%N; [|reflexivity].
    specialize (IH EmptyString {| process_instance_id := process_instance_id next;
                                  success_index := success_index next + 1 |}).
    destruct (handle_actions a rest EmptyString _) as [sent st]. simpl in *.
    rewrite IH at 1. simpl. f_equal.
    + destruct next; simpl; f_equal; lia.
    + rewrite <- seq_shift, map_map. apply map_ext. intro k. f_equal. lia.
  - specialize (IH EmptyString next).
    destruct (handle_actions a rest EmptyString next) as [sent st]. exact IH.
Qed.

Lemma handle_actions_shape `{RegexEngine} a acts line next :
  List.length (fst (handle_actions a acts line next)) <= List.length (filter ends_line acts)
  /\ (forall c, ~ In (Exited c) (fst (handle_actions a acts line next)))
  /\ ((success_index next + N.of_nat (List.length (filter ends_line acts)) <= u32_max)%N ->
      snd (handle_actions a acts line next) <> None).
Proof.
  revert line next. induction acts as [|act rest IH]; intros line next.
  - simpl. repeat split; [lia|intros c []|intros _; discriminate].
  - rewrite handle_actions_cons. simpl. destruct (ends_line act); [|apply IH].
    simpl. destruct (ProcessStatuses.analyze_line a line) as [la|].
    2:{ destruct (IH EmptyString next) as (H1 & H2 & H3).
        repeat split; [lia|exact H2|intro Hb; apply H3; lia]. }
    assert (Hstep : forall (s : ProcessStatus) next', (success_index next' <= success_index next + 1)%N ->
              (s = Running \/ exists id, s = Success id \/ exists ec, s = Errors ec) ->
              let r := handle_actions a rest EmptyString next' in
              List.length (fst (let (sent, st) := r in (s :: sent, st)))
                <= S (List.length (filter ends_line rest))
              /\ (forall c, ~ In (Exited c) (fst (let (sent, st) := r in (s :: sent, st))))
              /\ ((success_index next' + N.of_nat (List.length (filter ends_line rest))
                   <= u32_max)%N ->
                  snd (let (sent, st) := r in (s :: sent, st)) <> None)).
    { intros s next' _ Hs r. destruct (IH EmptyString next') as (H1 & H2 & H3).
      subst r. destruct (handle_actions a rest EmptyString next') as [sent st].
      simpl in *. repeat split; [lia| |exact H3].
      intros c [Hc|Hc]; [|exact (H2 c Hc)].
      subst s. destruct Hs as [Hs|[id [Hs|[ec Hs]]]]; discriminate. }
    destruct la as [| |ec]; simpl.
    + destruct (Hstep Running next ltac:(lia) (or_introl eq_refl)) as (H1 & H2 & H3).
      repeat split; [exact H1|exact H2|intro Hb; apply H3; lia].
    + unfold increment. destruct (success_index next + 1 <=? u32_max)%N eqn:E.
      * destruct (Hstep (Success next)
                    {| process_instance_id := process_instance_id next;
                       success_index := success_index next + 1 |}
                    ltac:(simpl; lia) (or_intror (ex_intro _ next (or_introl eq_refl))))
          as (H1 & H2 & H3).
        repeat split; [exact H1|exact H2|intro Hb; apply H3; simpl; lia].
      * apply N.leb_gt in E. simpl. repeat split; [lia|intros c []|lia].
    + destruct (Hstep (Errors ec) next ltac:(lia)
                  (or_intror (ex_intro _ next (or_intror (ex_intro _ ec eq_refl)))))
        as (H1 & H2 & H3).
      repeat split; [exact H1|exact H2|intro Hb; apply H3; lia].
Qed.

Lemma handle_actions_no_line_end `{RegexEngine} a acts line next :
  forallb (fun x => negb (ends_line x)) acts = true ->
  exists line', handle_actions a acts line next = ([], Some (line', next)).
Proof.
  revert line. induction acts as [|act rest IH]; intros line Hf; [exists line; reflexivity|].
  simpl in Hf. apply andb_true_iff in Hf as [Ha Hr].
  rewrite handle_actions_cons. destruct (ends_line act); [discriminate|]. apply IH, Hr.
Qed.

Lemma pty_size_eqb_eq (x y : PtySize) : pty_size_eqb x y = true <-> x = y.
Proof.
  unfold pty_size_eqb. split.
  - intro H. repeat rewrite andb_true_iff in H.
    destruct H as [[[H1 H2] H3] H4]. apply N.eqb_eq in H1, H2, H3, H4.
    destruct x, y; simpl in *; subst; reflexivity.
  - intros <-. rewrite !N.eqb_refl. reflexivity.
Qed.

Lemma sizes_consistent_forall (ps : Processes) :
  sizes_consistent ps = true <->
  Forall (fun p => pty_size p = processes_pty_size ps) (processes ps).
Proof.
  unfold sizes_consistent. rewrite forallb_forall, Forall_forall.
  split; intros H p Hp; specialize (H p Hp); apply pty_size_eqb_eq; exact H.
Qed.

(** A property of a process that only its [instance_state] can break is
    kept by a tick and by [start_process]'s own [Process::do_work]. *)
Section Invariant.
Variable P : Process -> Prop.
Hypothesis P_with_instance_state : forall p st, P p -> P (with_instance_state p st).

Lemma modify_at_forall i f (l : list Process) w l' w' :
  (forall p w, P p -> P (fst (f p w))) ->
  modify_at i f l w = Some (l', w') -> Forall P l -> Forall P l'.
Proof.
  intro Hf. revert i w l' w'.
  induction l as [|p t IH]; intros i w l' w' H Hl; destruct i as [|i]; simpl in H;
    try discriminate; inversion Hl as [|? ? Hp Ht]; subst.
  - specialize (Hf p w Hp). destruct (f p w) as [p' w1]. injection H as <- _.
    constructor; [exact Hf|exact Ht].
  - destruct (modify_at i f t w) as [[t' w1]|] eqn:E; [|discriminate].
    injection H as <- _. constructor; [exact Hp|exact (IH _ _ _ _ E Ht)].
Qed.

Lemma apply_action_forall a p w : P p -> P (fst (apply_action a p w)).
Proof. intro Hp. destruct a; apply P_with_instance_state; exact Hp. Qed.

Lemma apply_actions_forall m acts (l : list Process) w l' w' :
  apply_actions m acts l w = Some (l', w') -> Forall P l -> Forall P l'.
Proof.
  revert l w. induction acts as [|[u a] rest IH]; intros l w H Hl; simpl in H.
  - injection H as <- _. exact Hl.
  - destruct (multimap_get_vec m u) as [idxs|]; [|exact (IH _ _ H Hl)].
    destruct (apply_to_downstreams a idxs l w) as [[l1 w1]|] eqn:Ea; [|discriminate].
    apply (IH l1 w1 H). clear H. revert l w Ea Hl.
    induction idxs as [|i is IHi]; intros l w Ea Hl; simpl in Ea.
    + injection Ea as <- _. exact Hl.
    + destruct (modify_at i (apply_action a) l w) as [[l2 w2]|] eqn:Em; [|discriminate].
      apply (IHi l2 w2 Ea). exact (modify_at_forall _ _ _ _ _ _ (apply_action_forall a) Em Hl).
Qed.

Lemma synchronize_each_forall (l : list Process) :
  Forall P l -> Forall P (fst (synchronize_each l)).
Proof.
  induction 1 as [|p t Hp Ht IH]; [constructor|]. simpl.
  assert (Hs : P (fst (synchronize_status p))).
  { unfold synchronize_status. destruct (instance_state p); try exact Hp.
    destruct (last_opt _); simpl;
      first [exact Hp|apply P_with_instance_state; exact Hp]. }
  destruct (synchronize_status p) as [p' a]. destruct (synchronize_each t) as [t' acts].
  simpl in *. constructor; [exact Hs|exact IH].
Qed.



End Invariant.

Lemma process_resize_status tr size p :
  status (process_resize tr size p) = status p.
Proof. unfold status, process_resize. destruct (instance_state p); reflexivity. Qed.

(** Whether [openpty] and the master side's operations succeed: kept by
    every step of a tick. *)
Definition pty_flags (w : World) : bool * bool := (openpty_ok w, pty_master_ok w).

Lemma modify_at_flags i f (l : list Process) w l' w' :
  (forall p w, pty_flags (snd (f p w)) = pty_flags w) ->
  modify_at i f l w = Some (l', w') -> pty_flags w' = pty_flags w.
Proof.
  intro Hf. revert i w l' w'.
  induction l as [|p t IH]; intros i w l' w' H; destruct i as [|i]; simpl in H;
    try discriminate.
  - specialize (Hf p w). destruct (f p w) as [p' w1]. injection H as _ <-. exact Hf.
  - destruct (modify_at i f t w) as [[t' w1]|] eqn:E; [|discriminate].
    injection H as _ <-. exact (IH _ _ _ _ E).
Qed.

Lemma apply_action_flags a p w : pty_flags (snd (apply_action a p w)) = pty_flags w.
Proof.
  destruct a; unfold apply_action, restart, mark_waiting_for_upstream, kill; simpl;
    destruct (instance_state p); reflexivity.
Qed.

Lemma apply_actions_flags m acts (l : list Process) w l' w' :
  apply_actions m acts l w = Some (l', w') -> pty_flags w' = pty_flags w.
Proof.
  revert l w. induction acts as [|[u a] rest IH]; intros l w H; simpl in H.
  - injection H as _ <-. reflexivity.
  - destruct (multimap_get_vec m u) as [idxs|]; [|exact (IH _ _ H)].
    destruct (apply_to_downstreams a idxs l w) as [[l1 w1]|] eqn:Ea; [|discriminate].
    rewrite (IH l1 w1 H). clear H. revert l w Ea.
    induction idxs as [|i is IHi]; intros l w Ea; simpl in Ea.
    + injection Ea as _ <-. reflexivity.
    + destruct (modify_at i (apply_action a) l w) as [[l2 w2]|] eqn:Em; [|discriminate].
      rewrite (IHi l2 w2 Ea). exact (modify_at_flags _ _ _ _ _ _ (apply_action_flags a) Em).
Qed.

Lemma process_do_work_some `{RegexEngine} p w :
  openpty_ok w = true -> pty_master_ok w = true ->
  Config.process_status_analyzer (process_config p) <> None ->
  exists p' w', process_do_work p w = Some (p', w') /\ pty_flags w' = pty_flags w.
Proof.
  intros Ho Hm Ha. unfold process_do_work, start.
  destruct (instance_state p); try (eexists _, _; split; reflexivity).
  rewrite Ho. unfold instance_start.
  destruct (process_config_to_pty_command _ _); [eexists _, _; split; reflexivity|].
  destruct (spawn_ok w); [|eexists _, _; split; reflexivity].
  rewrite Hm. destruct (Config.process_status_analyzer _); [|contradiction].
  eexists _, _; split; reflexivity.
Qed.

Lemma do_work_each_some `{RegexEngine} (l : list Process) w :
  openpty_ok w = true -> pty_master_ok w = true ->
  Forall (fun p => Config.process_status_analyzer (process_config p) <> None) l ->
  exists l' w', do_work_each l w = Some (l', w').
Proof.
  intros Ho Hm Hl. revert w Ho Hm. induction Hl as [|p t Hp Ht IH]; intros w Ho Hm.
  - eexists _, _; reflexivity.
  - destruct (process_do_work_some p w Ho Hm Hp) as (p' & w1 & E & Hf).
    unfold pty_flags in Hf. injection Hf as Ho1 Hm1.
    destruct (IH w1 ltac:(congruence) ltac:(congruence)) as (t' & w2 & Et).
    simpl. rewrite E, Et. eexists _, _; reflexivity.
Qed.

End ExtraLemmas3.

Module ExtraFacts3.
Import processes Statuses Reader ExtraLemmas ExtraLemmas3.

(** X19: [analyze_line] never reports [Errors] with a count of [0] (such
    a line is a success), and a count it reports fits in a [u64]. *)
Theorem analyze_line_error_count `{RegexEngine} a line c :
  ProcessStatuses.analyze_line a line = Some (ProcessStatuses.Errors (Some c)) ->
  (0 < c <= Text.u64_max)%N.
Proof.
  unfold ProcessStatuses.analyze_line. intro Ha.
  destruct (Text.trim line) as [|c0 t0]; [discriminate|].
  assert (Hs : forall r : option Regex,
            match r with
            | Some r => if is_match r line then Some ProcessStatuses.Success
                        else Some ProcessStatuses.Running
            | None => Some ProcessStatuses.Running
            end <> Some (ProcessStatuses.Errors (Some c))).
  { intros [r|]; [destruct (is_match r line)|]; discriminate. }
  destruct (ProcessStatuses.error_regex a) as [r|]; [|exact (False_ind _ (Hs _ Ha))].
  destruct (regex_captures r line) as [caps|]; [|exact (False_ind _ (Hs _ Ha))].
  destruct (captures_get caps 1) as [cap|].
  - destruct (Text.parse_u64 cap) as [n|] eqn:Ep; simpl in Ha.
    + destruct (n =? 0)%N eqn:E0; [discriminate|].
      injection Ha as <-. apply N.eqb_neq in E0.
      split; [lia|exact (parse_u64_bound _ _ Ep)].
    + discriminate.
  - discriminate.
Qed.

Lemma analyze_line_error_count_witness :
  @ProcessStatuses.analyze_line MoreInputs.three_errors MoreInputs.error_analyzer "x"
    = Some (ProcessStatuses.Errors (Some 3%N))
  /\ (0 < 3 <= Text.u64_max)%N.
Proof.
  assert (H : @ProcessStatuses.analyze_line MoreInputs.three_errors MoreInputs.error_analyzer "x"
              = Some (ProcessStatuses.Errors (Some 3%N))) by (vm_compute; reflexivity).
  split; [exact H|].
  exact (@analyze_line_error_count MoreInputs.three_errors MoreInputs.error_analyzer "x" 3 H).
Defined.

(** X20: the successes the reader thread of an instance reports carry
    consecutive ids of that instance: [0], [1], [2], ... in the order
    sent, so no two are equal. *)
Theorem reader_success_ids_consecutive `{RegexEngine} a id actions exit_code :
  success_ids (reader_statuses a id actions exit_code)
  = map (fun k => {| process_instance_id := id; success_index := N.of_nat k |})
        (seq 0 (List.length (success_ids (reader_statuses a id actions exit_code)))).
Proof.
  unfold reader_statuses.
  pose proof (handle_actions_ids a actions EmptyString (success_id_new id)) as Hi.
  destruct (handle_actions a actions EmptyString (success_id_new id)) as [sent st].
  simpl in Hi. destruct st as [st|].
  - rewrite success_ids_app, app_nil_r. exact Hi.
  - exact Hi.
Qed.

(** X21: with fewer than [2^32] line ends in the output, the reader thread
    reports the exit last (the exit code, or [1] if waiting failed), after
    at most one status per line end and no other exit. *)
Theorem reader_reports_exit_last `{RegexEngine} a id actions exit_code :
  (N.of_nat (List.length (filter ends_line actions)) <= u32_max)%N ->
  exists sent,
    reader_statuses a id actions exit_code
      = sent ++ [Exited match exit_code with Some c => c | None => 1%N end]
    /\ List.length sent <= List.length (filter ends_line actions)
    /\ forall c, ~ In (Exited c) sent.
Proof.
  intro Hb. unfold reader_statuses.
  destruct (handle_actions_shape a actions EmptyString (success_id_new id)) as (H1 & H2 & H3).
  destruct (handle_actions a actions EmptyString (success_id_new id)) as [sent st].
  simpl in *. destruct st as [st|]; [|exfalso; apply H3; [exact Hb|reflexivity]].
  exists sent. repeat split; assumption.
Qed.

Lemma reader_reports_exit_last_witness :
  (N.of_nat (List.length (filter ends_line MoreInputs.reader_actions)) <= u32_max)%N
  /\ exists sent,
    @reader_statuses Inputs.no_match MoreInputs.error_analyzer 4 MoreInputs.reader_actions None
      = sent ++ [Exited 1]
    /\ List.length sent <= List.length (filter ends_line MoreInputs.reader_actions)
    /\ forall c, ~ In (Exited c) sent.
Proof.
  assert (H : (N.of_nat (List.length (filter ends_line MoreInputs.reader_actions)) <= u32_max)%N)
    by (vm_compute; discriminate).
  split; [exact H|].
  exact (@reader_reports_exit_last Inputs.no_match MoreInputs.error_analyzer 4
           MoreInputs.reader_actions None H).
Defined.

(** X22: output with no line end ([LineFeed], [CarriageReturn] or
    [FullReset]) is never analyzed: the reader thread reports only the
    exit. *)
Theorem reader_without_line_end `{RegexEngine} a id actions exit_code :
  forallb (fun x => negb (ends_line x)) actions = true ->
  reader_statuses a id actions exit_code
    = [Exited match exit_code with Some c => c | None => 1%N end].
Proof.
  intro Hf. unfold reader_statuses.
  destruct (handle_actions_no_line_end a actions EmptyString (success_id_new id) Hf)
    as [line' E].
  rewrite E. reflexivity.
Qed.

Lemma reader_without_line_end_witness :
  forallb (fun x => negb (ends_line x)) (skipn 2 MoreInputs.reader_actions) = true
  /\ @reader_statuses Inputs.no_match MoreInputs.error_analyzer 4
       (skipn 2 MoreInputs.reader_actions) (Some 0%N) = [Exited 0].
Proof.
  assert (H : forallb (fun x => negb (ends_line x)) (skipn 2 MoreInputs.reader_actions) = true)
    by reflexivity.
  split; [exact H|].
  exact (@reader_without_line_end Inputs.no_match MoreInputs.error_analyzer 4 _ (Some 0%N) H).
Defined.

(** X23: with a process type set, the config's own [success_regex] and
    [error_regex] are ignored: configs of the same type get the same
    analyzer. *)
Theorem analyzer_preset_ignores_user_regexes `{RegexEngine} c c' :
  Config.process_type c <> None ->
  Config.process_type c' = Config.process_type c ->
  Config.process_status_analyzer c' = Config.process_status_analyzer c.
Proof.
  intros Hn He. unfold Config.process_status_analyzer. rewrite He.
  destruct (Config.process_type c); [reflexivity|contradiction].
Qed.

Lemma analyzer_preset_ignores_user_regexes_witness :
  Config.process_type Inputs.tsc_config <> None
  /\ Config.process_type MoreInputs.tsc_config_own_regexes = Config.process_type Inputs.tsc_config
  /\ @Config.process_status_analyzer MoreInputs.three_errors MoreInputs.tsc_config_own_regexes
     = @Config.process_status_analyzer MoreInputs.three_errors Inputs.tsc_config.
Proof.
  assert (H1 : Config.process_type Inputs.tsc_config <> None) by discriminate.
  assert (H2 : Config.process_type MoreInputs.tsc_config_own_regexes
               = Config.process_type Inputs.tsc_config) by reflexivity.
  split; [exact H1|]. split; [exact H2|].
  exact (@analyzer_preset_ignores_user_regexes MoreInputs.three_errors _ _ H1 H2).
Defined.

(** X24: without a process type, a malformed [success_regex] or
    [error_regex] makes [process_status_analyzer] panic. *)
Theorem analyzer_malformed_pattern_panics `{RegexEngine} c p :
  Config.process_type c = None ->
  (Config.success_regex c = Some p \/ Config.error_regex c = Some p) ->
  regex_compiles p = false ->
  Config.process_status_analyzer c = None.
Proof.
  intros Ht Hp Hc. unfold Config.process_status_analyzer. rewrite Ht.
  destruct Hp as [Hs|He].
  - unfold Config.compile_optional, regex_new. rewrite Hs, Hc. reflexivity.
  - destruct (Config.compile_optional (Config.success_regex c)); [|reflexivity].
    rewrite He. unfold Config.compile_optional, regex_new. rewrite Hc. reflexivity.
Qed.

Lemma analyzer_malformed_pattern_panics_witness :
  Config.process_type MoreInputs.malformed_config = None
  /\ @Config.process_status_analyzer MoreInputs.three_errors MoreInputs.malformed_config = None.
Proof.
  assert (H : Config.process_type MoreInputs.malformed_config = None) by reflexivity.
  split; [exact H|].
  apply (@analyzer_malformed_pattern_panics MoreInputs.three_errors _ "(" H);
    [left; reflexivity|reflexivity].
Defined.

(** X25: [Processes::resize] records the new width and height as [u16]s,
    leaves every process with the recorded size and changes no status. *)
Theorem resize_sets_every_size tr (ps : Processes) size :
  sizes_consistent ps = true ->
  sizes_consistent (resize tr ps size) = true
  /\ cols (processes_pty_size (resize tr ps size)) = as_u16 (fst size)
  /\ rows (processes_pty_size (resize tr ps size)) = as_u16 (snd size)
  /\ map status (processes (resize tr ps size)) = map status (processes ps).
Proof.
  intro Hc. unfold resize.
  destruct (pty_size_eqb _ _) eqn:E; simpl.
  - apply pty_size_eqb_eq in E. rewrite E. simpl. repeat split. exact Hc.
  - repeat split.
    + apply sizes_consistent_forall. simpl. apply Forall_forall.
      intros p Hp. apply in_map_iff in Hp as (q & <- & _). reflexivity.
    + rewrite map_map. apply map_ext. apply process_resize_status.
Qed.

Lemma resize_sets_every_size_witness :
  sizes_consistent (MoreInputs.build_and_serve_state) = true
  /\ sizes_consistent (resize (fun sc _ => sc) (MoreInputs.build_and_serve_state) (100, 40)%N) = true
  /\ cols (processes_pty_size (resize (fun sc _ => sc) (MoreInputs.build_and_serve_state) (100, 40)%N))
     = as_u16 (fst (100, 40)%N)
  /\ rows (processes_pty_size (resize (fun sc _ => sc) (MoreInputs.build_and_serve_state) (100, 40)%N))
     = as_u16 (snd (100, 40)%N)
  /\ map status (processes (resize (fun sc _ => sc) (MoreInputs.build_and_serve_state) (100, 40)%N))
     = map status (processes (MoreInputs.build_and_serve_state)).
Proof.
  assert (H : sizes_consistent (MoreInputs.build_and_serve_state) = true) by (vm_compute; reflexivity).
  split; [exact H|]. exact (resize_sets_every_size _ _ (100, 40)%N H).
Defined.



(** X27: resizing twice to the same size is the same as resizing once:
    the second call finds the size unchanged and does nothing. *)
Theorem resize_idempotent tr (ps : Processes) size :
  resize tr (resize tr ps size) size = resize tr ps size.
Proof.
  destruct (pty_size_eqb (processes_pty_size ps)
              {| rows := as_u16 (snd size); cols := as_u16 (fst size);
                 pixel_width := pixel_width (processes_pty_size ps);
                 pixel_height := pixel_height (processes_pty_size ps) |}) eqn:E.
  - assert (Hr : resize tr ps size = ps) by (unfold resize; rewrite E; reflexivity).
    rewrite Hr. exact Hr.
  - unfold resize at 2. rewrite E. simpl.
    unfold resize at 1. simpl.
    rewrite (proj2 (pty_size_eqb_eq _ _) eq_refl). simpl.
    unfold resize. rewrite E. reflexivity.
Qed.

(** X29: [start_process] panics exactly when the new process autostarts and
    either [openpty] fails, or the command spawns and then the master side
    of the pty fails or a configured regex does not compile
    ([process_status_analyzer]).  A missing command, a failing
    [current_dir] or a failing spawn is no panic: the process fails to
    start. *)
Theorem start_process_panics_iff `{RegexEngine} c (ps : Processes) w :
  start_process c ps w = None <->
  Config.autostart_of c = true
  /\ (openpty_ok w = false
      \/ (Config.command c <> [] /\ current_dir_ok w = true /\ spawn_ok w = true
          /\ (pty_master_ok w = false \/ Config.process_status_analyzer c = None))).
Proof.
  unfold start_process, process_do_work, process_new. simpl.
  destruct (Config.autostart_of c); simpl.
  2: { split; [discriminate|]. intros [Hf _]. discriminate. }
  unfold start. simpl.
  destruct (openpty_ok w); simpl.
  2: { split; [intros _; split; [reflexivity|left; reflexivity]|reflexivity]. }
  unfold instance_start, process_config_to_pty_command.
  destruct (Config.command c) as [|x xs]; simpl.
  { split; [discriminate|]. intros [_ [Hf|(Hc & _)]]; [discriminate|]. contradiction. }
  destruct (current_dir_ok w); simpl.
  2: { split; [discriminate|]. intros [_ [Hf|(_ & Hd & _)]]; discriminate. }
  destruct (spawn_ok w); simpl.
  2: { split; [discriminate|]. intros [_ [Hf|(_ & _ & Hs & _)]]; discriminate. }
  destruct (pty_master_ok w); simpl.
  2: { split; [intros _|reflexivity].
       split; [reflexivity|]. right. repeat split; [discriminate|left; reflexivity]. }
  destruct (Config.process_status_analyzer c); simpl.
  - split; [discriminate|]. intros [_ [Hf|(_ & _ & _ & [Hm|Ha])]]; discriminate.
  - split; [intros _|reflexivity].
    split; [reflexivity|]. right. repeat split; [discriminate|right; reflexivity].
Qed.

(** X30: [Processes::do_work] does not panic while every registered
    downstream index names a process, [openpty] and the master side of the
    pty work, and every process's configured regexes compile; it keeps the
    downstream indices valid. *)
Theorem do_work_total_when_regexes_compile `{RegexEngine} (ps : Processes) w :
  after_valid ps = true -> openpty_ok w = true -> pty_master_ok w = true ->
  Forall (fun p => Config.process_status_analyzer (process_config p) <> None)
    (processes ps) ->
  exists ps' w', do_work ps w = Some (ps', w') /\ after_valid ps' = true.
Proof.
  intros Hv Ho Hm Hc.
  set (P := fun p => Config.process_status_analyzer (process_config p) <> None).
  assert (HP : forall p st, P p -> P (with_instance_state p st)) by (intros p st Hp; exact Hp).
  assert (Hdo : exists ps' w', do_work ps w = Some (ps', w')).
  { unfold do_work, handle_status_updates.
    pose proof (Facts.synchronize_each_length (processes ps)) as Hs.
    pose proof (synchronize_each_forall P HP _ Hc) as H1.
    destruct (synchronize_each (processes ps)) as [l acts]. simpl in Hs, H1.
    destruct (apply_actions_some (after ps) acts l w) as [[l1 w1] Ea].
    { unfold after_valid in Hv. rewrite Hs. exact Hv. }
    rewrite Ea. simpl.
    pose proof (apply_actions_forall P HP _ _ _ _ _ _ Ea H1) as H2.
    pose proof (apply_actions_flags _ _ _ _ _ _ Ea) as Hf.
    unfold pty_flags in Hf. injection Hf as Ho1 Hm1.
    destruct (do_work_each_some l1 w1 ltac:(congruence) ltac:(congruence) H2)
      as (l2 & w2 & Ed).
    rewrite Ed. eexists _, _. reflexivity. }
  destruct Hdo as (ps' & w' & E). exists ps', w'. split; [exact E|].
  destruct (do_work_frame _ _ _ _ E) as (Ha & _ & _).
  destruct (Facts.do_work_shape _ _ _ _ E) as (Hl & _).
  unfold after_valid in *. rewrite Ha, Hl. exact Hv.
Qed.

Lemma do_work_total_when_regexes_compile_witness :
  after_valid MoreInputs.build_and_serve_state = true
  /\ openpty_ok Inputs.world0 = true /\ pty_master_ok Inputs.world0 = true
  /\ Forall (fun p => Config.process_status_analyzer (H := Inputs.no_match)
                        (process_config p) <> None)
       (processes MoreInputs.build_and_serve_state)
  /\ exists ps' w', do_work (H := Inputs.no_match) MoreInputs.build_and_serve_state
                      Inputs.world0 = Some (ps', w')
                   /\ after_valid ps' = true.
Proof.
  assert (Hv : after_valid MoreInputs.build_and_serve_state = true)
    by (vm_compute; reflexivity).
  assert (Hc : Forall (fun p => Config.process_status_analyzer (H := Inputs.no_match)
                                  (process_config p) <> None)
                 (processes MoreInputs.build_and_serve_state))
    by (vm_compute; repeat constructor; discriminate).
  split; [exact Hv|]. split; [reflexivity|]. split; [reflexivity|]. split; [exact Hc|].
  exact (do_work_total_when_regexes_compile (H := Inputs.no_match) _ Inputs.world0
           Hv eq_refl eq_refl Hc).
Defined.

(** X31: when [start_process] does not panic, the process it appends is
    started at once if it autostarts, either running with status [Running],
    an empty status channel and the next process id, or failed to start
    with the world unchanged; otherwise it is [NotStarted] and the world is
    left as it was. *)
Theorem start_process_appends_started `{RegexEngine} c (ps : Processes) w ps' w' :
  start_process c ps w = Some (ps', w') ->
  exists p,
    nth_error (processes ps') (List.length (processes ps)) = Some p
    /\ if Config.autostart_of c
       then (exists i, instance_state p = ProcessInstanceState.Running i processes.Running []
                       /\ child_pid i = next_pid w
                       /\ w' = with_next_pid w (S (next_pid w)))
            \/ (exists e, instance_state p = ProcessInstanceState.FailedToStart e /\ w' = w)
       else instance_state p = ProcessInstanceState.NotStarted /\ w' = w.
Proof.
  unfold start_process, process_do_work, process_new. intro Hs.
  destruct (Config.autostart_of c) eqn:Ea; simpl in Hs.
  - unfold start in Hs. simpl in Hs.
    destruct (openpty_ok w); [|discriminate].
    destruct (instance_start c (processes_pty_size ps) w) as [[[i|e] w1]|] eqn:Ei;
      [| |discriminate]; injection Hs as <- <-; eexists; simpl;
      (rewrite nth_error_app2, Nat.sub_diag by lia; split; [reflexivity|]).
    + left. exists i. split; [reflexivity|].
      unfold instance_start in Ei.
      destruct (process_config_to_pty_command c w); [discriminate|].
      destruct (spawn_ok w); [|discriminate].
      destruct (pty_master_ok w); [|discriminate].
      destruct (Config.process_status_analyzer c); [|discriminate].
      injection Ei as <- <-. split; reflexivity.
    + right. exists e. split; [reflexivity|].
      unfold instance_start in Ei.
      destruct (process_config_to_pty_command c w); [injection Ei as _ <-; reflexivity|].
      destruct (spawn_ok w); [|injection Ei as _ <-; reflexivity].
      destruct (pty_master_ok w); [|discriminate].
      destruct (Config.process_status_analyzer c); discriminate.
  - injection Hs as <- <-. eexists. simpl.
    rewrite nth_error_app2, Nat.sub_diag by lia. split; [reflexivity|].
    split; reflexivity.
Qed.

Lemma start_process_appends_started_witness :
  exists ps' w',
    start_process (H := Inputs.no_match) (Inputs.plain_config "build" None) new
      Inputs.world0 = Some (ps', w')
    /\ exists p,
         nth_error (processes ps') (List.length (processes new)) = Some p
         /\ if Config.autostart_of (Inputs.plain_config "build" None)
            then (exists i, instance_state p = ProcessInstanceState.Running i processes.Running []
                            /\ child_pid i = next_pid Inputs.world0
                            /\ w' = with_next_pid Inputs.world0 (S (next_pid Inputs.world0)))
                 \/ (exists e, instance_state p = ProcessInstanceState.FailedToStart e
                               /\ w' = Inputs.world0)
            else instance_state p = ProcessInstanceState.NotStarted /\ w' = Inputs.world0.
Proof.
  destruct (start_process (H := Inputs.no_match) (Inputs.plain_config "build" None) new
              Inputs.world0) as [[ps' w']|] eqn:E; [|vm_compute in E; discriminate].
  exists ps', w'. split; [reflexivity|].
  exact (start_process_appends_started (H := Inputs.no_match) _ new Inputs.world0 ps' w' E).
Defined.

End ExtraFacts3.
